(** * ThingSpeak communication library for Mbed OS: a shallow embedding

    The development follows [src/ThingSpeak.h].  The class [ThingSpeak]
    becomes a record, its member functions become computations in a small
    state-and-exception monad over that record, and the HTTP stack
    ([HttpRequest] / [HttpResponse], a separate library) is a parameter of
    the development.

    Target platform: Mbed OS on a 32-bit core, so [int], [long] and
    [size_t] are all 32 bits wide. *)

From Stdlib Require Import ZArith Lia Bool Ascii String DecimalString.
From Stdlib Require Import Floats.SpecFloat.
From stdpp Require Import base list strings.

Local Open Scope string_scope.
Local Open Scope Z_scope.

(** ** Machine integers *)

Module Int.

Definition INT_MIN : Z := - 2 ^ 31.
Definition INT_MAX : Z := 2 ^ 31 - 1.
Definition SIZE_MAX : Z := 2 ^ 32 - 1.

(** Conversion to [size_t] (and every arithmetic result in [size_t]):
    reduction modulo 2^32. *)
Definition to_size_t (z : Z) : Z := z mod 2 ^ 32.

(** Conversion to [int]: the two's complement representative. *)
Definition to_int (z : Z) : Z := (z + 2 ^ 31) mod 2 ^ 32 - 2 ^ 31.

(** [int + int]. *)
Definition int_add (a b : Z) : Z := to_int (a + b).

(** [int + size_t]: the [int] operand is converted to [size_t] and the sum
    is taken in [size_t]. *)
Definition mixed_add (a b : Z) : Z := to_size_t (to_size_t a + b).

End Int.

(** ** The parts of the C++ standard library the class uses *)

Module Std.

(** C++ exceptions that the standard library calls below can raise. *)
Inductive exception : Type :=
| invalid_argument
| out_of_range.

(** The outcome of an expression that may throw. *)
Inductive outcome (A : Type) : Type :=
| Ret (a : A)
| Throw (e : exception).
Arguments Ret {A} a.
Arguments Throw {A} e.

(** [s.length()] as a [size_t]. *)
Definition length (s : string) : Z := Z.of_nat (String.length s).

(** [string::npos]. *)
Definition npos : Z := Int.SIZE_MAX.

(** [s.find(pat, pos)]: the lowest position [>= pos] at which [pat] occurs
    in [s], or [npos]. *)
Definition find (s pat : string) (pos : Z) : Z :=
  match String.index (Z.to_nat pos) pat s with
  | Some i => Z.of_nat i
  | None => npos
  end.

(** [s.erase(pos)]: drops everything from [pos] on; throws when [pos] is
    beyond the end. *)
Definition erase (s : string) (pos : Z) : outcome string :=
  if length s <? pos then Throw out_of_range
  else Ret (String.substring 0 (Z.to_nat pos) s).

(** [s.substr(pos)]: the suffix starting at [pos]; throws when [pos] is
    beyond the end. *)
Definition substr (s : string) (pos : Z) : outcome string :=
  if length s <? pos then Throw out_of_range
  else Ret (String.substring (Z.to_nat pos) (String.length s - Z.to_nat pos) s).

(** [std::to_string] on the integer types: the ["%d"] / ["%u"] / ["%lu"]
    rendering. *)
Definition to_string (z : Z) : string := NilZero.string_of_int (Z.to_int z).

(** [s.c_str()] seen as a C string: the bytes before the first NUL. *)
Fixpoint c_str (s : string) : string :=
  match s with
  | EmptyString => EmptyString
  | String c s' => if Ascii.eqb c zero then EmptyString else String c (c_str s')
  end.

(** [isspace] in the "C" locale. *)
Definition isspace (c : ascii) : bool :=
  let n := nat_of_ascii c in
  (n =? 32)%nat || ((9 <=? n)%nat && (n <=? 13)%nat).

Definition digit_value (c : ascii) : option Z :=
  let n := nat_of_ascii c in
  if ((48 <=? n)%nat && (n <=? 57)%nat) then Some (Z.of_nat n - 48) else None.

Fixpoint skip_space (s : string) : string :=
  match s with
  | String c s' => if isspace c then skip_space s' else s
  | EmptyString => EmptyString
  end.

(** Reads the longest run of decimal digits at the front of [s]; [acc] is
    the value read so far and [seen] tells whether any digit was read. *)
Fixpoint read_digits (s : string) (acc : Z) (seen : bool) : Z * bool :=
  match s with
  | String c s' =>
      match digit_value c with
      | Some d => read_digits s' (10 * acc + d) true
      | None => (acc, seen)
      end
  | EmptyString => (acc, seen)
  end.

(** [std::stoi(s)]: [strtol] in base 10 (leading white space, an optional
    sign, then digits); [invalid_argument] when no digit is read,
    [out_of_range] when the value does not fit an [int]. *)
Definition stoi (s : string) : outcome Z :=
  let s1 := skip_space s in
  let '(neg, s2) :=
    match s1 with
    | String "-" r => (true, r)
    | String "+" r => (false, r)
    | _ => (false, s1)
    end in
  let '(v, seen) := read_digits s2 0 false in
  if seen then
    let v := if neg then - v else v in
    if (Int.INT_MIN <=? v) && (v <=? Int.INT_MAX) then Ret v
    else Throw out_of_range
  else Throw invalid_argument.

End Std.

(** ** The HTTP library, as the class drives it *)

Module Http.

Inductive http_method : Type :=
| HTTP_GET
| HTTP_POST.

(** What the class hands to the HTTP library for one exchange: the
    constructor arguments of [HttpRequest], the [set_header] calls in the
    order they are made, and the bytes given to [send]. *)
Record Request : Type := mkRequest {
  method : http_method;
  url : string;
  headers : list (string * string);
  body : string
}.

(** What the class reads back from an [HttpResponse]. *)
Record Response : Type := mkResponse {
  get_status_code : Z;
  get_body_as_string : string
}.

Definition HttpRequest (m : http_method) (u : string) : Request :=
  mkRequest m u [] "".

Definition set_header (r : Request) (key value : string) : Request :=
  mkRequest (method r) (url r) (headers r ++ [(key, value)]) (body r).

(** [request->send(body, strlen(body))]: the payload is the C string. *)
Definition with_body (r : Request) (payload : string) : Request :=
  mkRequest (method r) (url r) (headers r) (Std.c_str payload).

End Http.

(** ** Constants of [ThingSpeak.h] *)

Definition TS_USER_AGENT : string := "tslib-mbed/2.0.0 (mbed)".

Definition FIELDNUM_MIN : Z := 1.
Definition FIELDNUM_MAX : Z := 8.
Definition FIELDLENGTH_MAX : Z := 255.

Definition OK_SUCCESS : Z := 200.
Definition ERR_BADAPIKEY : Z := 400.
Definition ERR_BADURL : Z := 404.
Definition ERR_OUT_OF_RANGE : Z := -101.
Definition ERR_INVALID_FIELD_NUM : Z := -201.
Definition ERR_SETFIELD_NOT_CALLED : Z := -210.
Definition ERR_CONNECT_FAILED : Z := -301.
Definition ERR_UNEXPECTED_FAIL : Z := -302.
Definition ERR_BAD_RESPONSE : Z := -303.
Definition ERR_TIMEOUT : Z := -304.
Definition ERR_NOT_INSERTED : Z := -401.

(** The double quote and the line feed, as one-character strings. *)
Definition dquote : string := String "034"%char EmptyString.
Definition nl : string := String "010"%char EmptyString.

(** ** The object *)

(** The data members of [class ThingSpeak].  [nextWriteField] is the array
    [string nextWriteField[8]]; the three coordinates are [float]s, of which
    the class only ever stores a value or [NAN].  The [net] pointer is the
    transport, a parameter of the section below. *)
Record ThingSpeak : Type := mkThingSpeak {
  nextWriteField : list string;
  nextWriteLatitude : spec_float;
  nextWriteLongitude : spec_float;
  nextWriteElevation : spec_float;
  lastReadStatus : Z;
  nextWriteStatus : string;
  nextWriteTwitter : string;
  nextWriteTweet : string;
  nextWriteCreatedAt : string
}.

(** The array has its eight slots. *)
Definition wf (t : ThingSpeak) : Prop :=
  List.length (nextWriteField t) = Z.to_nat FIELDNUM_MAX.

(** Every staged string respects the 255-byte limit of the service. *)
Definition within_limit (s : string) : Prop := Std.length s <= FIELDLENGTH_MAX.

Definition bounded (t : ThingSpeak) : Prop :=
  (forall i : nat, (i < 8)%nat -> within_limit (nextWriteField t !!! i)) /\
  within_limit (nextWriteStatus t) /\
  within_limit (nextWriteTwitter t) /\
  within_limit (nextWriteTweet t) /\
  within_limit (nextWriteCreatedAt t).

(** Something is staged: a field, the status, the twitter handle, the tweet
    or the timestamp holds a non-empty string. *)
Definition staged (t : ThingSpeak) : Prop :=
  (exists i : nat, (i < 8)%nat /\ nextWriteField t !!! i <> "") \/
  nextWriteStatus t <> "" \/
  nextWriteTwitter t <> "" \/
  nextWriteTweet t <> "" \/
  nextWriteCreatedAt t <> "".

Definition set_nextWriteField (f : list string) (t : ThingSpeak) : ThingSpeak :=
  mkThingSpeak f (nextWriteLatitude t) (nextWriteLongitude t)
    (nextWriteElevation t) (lastReadStatus t) (nextWriteStatus t)
    (nextWriteTwitter t) (nextWriteTweet t) (nextWriteCreatedAt t).

Definition set_nextWriteLatitude (x : spec_float) (t : ThingSpeak) : ThingSpeak :=
  mkThingSpeak (nextWriteField t) x (nextWriteLongitude t)
    (nextWriteElevation t) (lastReadStatus t) (nextWriteStatus t)
    (nextWriteTwitter t) (nextWriteTweet t) (nextWriteCreatedAt t).

Definition set_nextWriteLongitude (x : spec_float) (t : ThingSpeak) : ThingSpeak :=
  mkThingSpeak (nextWriteField t) (nextWriteLatitude t) x
    (nextWriteElevation t) (lastReadStatus t) (nextWriteStatus t)
    (nextWriteTwitter t) (nextWriteTweet t) (nextWriteCreatedAt t).

Definition set_nextWriteElevation (x : spec_float) (t : ThingSpeak) : ThingSpeak :=
  mkThingSpeak (nextWriteField t) (nextWriteLatitude t) (nextWriteLongitude t)
    x (lastReadStatus t) (nextWriteStatus t)
    (nextWriteTwitter t) (nextWriteTweet t) (nextWriteCreatedAt t).

Definition set_lastReadStatus (x : Z) (t : ThingSpeak) : ThingSpeak :=
  mkThingSpeak (nextWriteField t) (nextWriteLatitude t) (nextWriteLongitude t)
    (nextWriteElevation t) x (nextWriteStatus t)
    (nextWriteTwitter t) (nextWriteTweet t) (nextWriteCreatedAt t).

Definition set_nextWriteStatus (x : string) (t : ThingSpeak) : ThingSpeak :=
  mkThingSpeak (nextWriteField t) (nextWriteLatitude t) (nextWriteLongitude t)
    (nextWriteElevation t) (lastReadStatus t) x
    (nextWriteTwitter t) (nextWriteTweet t) (nextWriteCreatedAt t).

Definition set_nextWriteTwitter (x : string) (t : ThingSpeak) : ThingSpeak :=
  mkThingSpeak (nextWriteField t) (nextWriteLatitude t) (nextWriteLongitude t)
    (nextWriteElevation t) (lastReadStatus t) (nextWriteStatus t)
    x (nextWriteTweet t) (nextWriteCreatedAt t).

Definition set_nextWriteTweet (x : string) (t : ThingSpeak) : ThingSpeak :=
  mkThingSpeak (nextWriteField t) (nextWriteLatitude t) (nextWriteLongitude t)
    (nextWriteElevation t) (lastReadStatus t) (nextWriteStatus t)
    (nextWriteTwitter t) x (nextWriteCreatedAt t).

Definition set_nextWriteCreatedAt (x : string) (t : ThingSpeak) : ThingSpeak :=
  mkThingSpeak (nextWriteField t) (nextWriteLatitude t) (nextWriteLongitude t)
    (nextWriteElevation t) (lastReadStatus t) (nextWriteStatus t)
    (nextWriteTwitter t) (nextWriteTweet t) x.

(** ** The world a member function runs in *)

(** The object itself, the requests handed to the HTTP library so far
    (oldest first) and the lines written to standard output. *)
Record World : Type := mkWorld {
  this : ThingSpeak;
  wire : list Http.Request;
  console : list string
}.

(** A member function: it may change the world, and it returns or throws. *)
Definition M (A : Type) : Type := World -> Std.outcome A * World.

Definition ret {A : Type} (a : A) : M A := fun w => (Std.Ret a, w).

Definition bind {A B : Type} (m : M A) (k : A -> M B) : M B :=
  fun w =>
    match m w with
    | (Std.Ret a, w') => k a w'
    | (Std.Throw e, w') => (Std.Throw e, w')
    end.

Notation "'let*' x := m 'in' k" := (bind m (fun x => k))
  (at level 10, x name, m at level 100, k at level 200, only parsing).

(** An expression of the standard library evaluated inside a member. *)
Definition eval {A : Type} (o : Std.outcome A) : M A := fun w => (o, w).

Definition get_this : M ThingSpeak := fun w => (Std.Ret (this w), w).

Definition modify_this (f : ThingSpeak -> ThingSpeak) : M unit :=
  fun w => (Std.Ret tt, mkWorld (f (this w)) (wire w) (console w)).

Definition printf (line : string) : M unit :=
  fun w => (Std.Ret tt, mkWorld (this w) (wire w) (console w ++ [line])).

(** ** Member functions that do not touch the network *)

(** [resetWriteFields]. *)
Definition resetWriteFields (t : ThingSpeak) : ThingSpeak :=
  let fields :=
    foldl (fun fs iField => <[iField := ""]> fs) (nextWriteField t)
      (seq 0 (Z.to_nat FIELDNUM_MAX)) in
  mkThingSpeak fields S754_nan S754_nan S754_nan (lastReadStatus t) "" "" "" "".

(** The constructor: the string members start out default-constructed,
    then the body of the constructor runs. *)
Definition ThingSpeak_new : ThingSpeak :=
  let t := mkThingSpeak (replicate 8 "") S754_nan S754_nan S754_nan 0 "" "" "" "" in
  set_lastReadStatus OK_SUCCESS (resetWriteFields t).

(** [begin]. *)
Definition begin : M bool :=
  let* _ := modify_this resetWriteFields in
  let* _ := modify_this (set_lastReadStatus OK_SUCCESS) in
  ret true.

(** [setField(unsigned int field, string value)]. *)
Definition setField (field : Z) (value : string) : M Z :=
  if (field <? FIELDNUM_MIN) || (field >? FIELDNUM_MAX) then ret ERR_INVALID_FIELD_NUM
  else if Std.length value >? FIELDLENGTH_MAX then ret ERR_OUT_OF_RANGE
  else
    let* _ := modify_this (fun t =>
      set_nextWriteField (<[Z.to_nat (field - 1) := value]> (nextWriteField t)) t) in
    ret OK_SUCCESS.

(** The [int] and [long] overloads of [setField]. *)
Definition setField_int (field : Z) (value : Z) : M Z :=
  setField field (Std.to_string value).

Definition setLatitude (latitude : spec_float) : M Z :=
  let* _ := modify_this (set_nextWriteLatitude latitude) in ret OK_SUCCESS.

Definition setLongitude (longitude : spec_float) : M Z :=
  let* _ := modify_this (set_nextWriteLongitude longitude) in ret OK_SUCCESS.

Definition setElevation (elevation : spec_float) : M Z :=
  let* _ := modify_this (set_nextWriteElevation elevation) in ret OK_SUCCESS.

Definition setStatus (status : string) : M Z :=
  if Std.length status >? FIELDLENGTH_MAX then ret ERR_OUT_OF_RANGE
  else let* _ := modify_this (set_nextWriteStatus status) in ret OK_SUCCESS.

Definition setTwitterTweet (twitter tweet : string) : M Z :=
  if (Std.length twitter >? FIELDLENGTH_MAX) || (Std.length tweet >? FIELDLENGTH_MAX)
  then ret ERR_OUT_OF_RANGE
  else
    let* _ := modify_this (set_nextWriteTwitter twitter) in
    let* _ := modify_this (set_nextWriteTweet tweet) in
    ret OK_SUCCESS.

Definition setCreatedAt (createdAt : string) : M Z :=
  if Std.length createdAt >? FIELDLENGTH_MAX then ret ERR_OUT_OF_RANGE
  else let* _ := modify_this (set_nextWriteCreatedAt createdAt) in ret OK_SUCCESS.

(** [getLastReadStatus]. *)
Definition getLastReadStatus : M Z :=
  let* t := get_this in ret (lastReadStatus t).

(** One turn of the loop of [getWriteFieldsContentLength]. *)
Definition contentLen_field (t : ThingSpeak) (contentLen : Z) (iField : nat) : Z :=
  if Std.length (nextWriteField t !!! iField) >? 0 then
    let contentLen :=
      Int.to_int (Int.mixed_add (Int.int_add contentLen 8)
                    (Std.length (nextWriteField t !!! iField))) in
    if Z.of_nat iField >? 9 then Int.int_add contentLen 1
    else if Z.of_nat iField >? 99 then Int.int_add contentLen 2
    else contentLen
  else contentLen.

(** One of the four blocks that follow the loop: [extra] is the constant
    the block adds for the ["&name="] prefix. *)
Definition contentLen_term (extra : Z) (value : string) (contentLen : Z) : Z :=
  if Std.length value >? 0 then
    Int.to_int (Int.mixed_add (Int.int_add contentLen extra) (Std.length value))
  else contentLen.

(** [getWriteFieldsContentLength]. *)
Definition getWriteFieldsContentLength (t : ThingSpeak) : Z :=
  let contentLen := 0 in
  let contentLen := foldl (contentLen_field t) contentLen (seq 0 (Z.to_nat FIELDNUM_MAX)) in
  let contentLen := contentLen_term 8 (nextWriteStatus t) contentLen in
  let contentLen := contentLen_term 9 (nextWriteTwitter t) contentLen in
  let contentLen := contentLen_term 7 (nextWriteTweet t) contentLen in
  let contentLen := contentLen_term 12 (nextWriteCreatedAt t) contentLen in
  if contentLen =? 0 then 0
  else Int.int_add contentLen 13.

(** One turn of the loop of [writeFields] that builds the body; the state
    of the loop is [body] and [fFirstItem]. *)
Definition body_field (t : ThingSpeak) (acc : string * bool) (iField : nat) : string * bool :=
  let '(body, fFirstItem) := acc in
  if Std.length (nextWriteField t !!! iField) >? 0 then
    let body := if negb fFirstItem then body +:+ "&" else body in
    let body := body +:+ "field" in
    let body := body +:+ Std.to_string (Int.to_int (Int.to_size_t (Z.of_nat iField + 1))) in
    let body := body +:+ "=" in
    let body := body +:+ nextWriteField t !!! iField in
    (body, false)
  else acc.

(** One of the four blocks of [writeFields] that follow the loop. *)
Definition body_term (name : string) (value : string) (acc : string * bool) : string * bool :=
  let '(body, fFirstItem) := acc in
  if Std.length value >? 0 then
    let body := if negb fFirstItem then body +:+ "&" else body in
    let body := body +:+ name in
    let body := body +:+ value in
    (body, false)
  else acc.

(** The body string [writeFields] has built once it has executed
    [body += "&headers=false"], just before it resets the buffer and
    sends. *)
Definition encode (t : ThingSpeak) : string :=
  let acc := ("", true) in
  let acc := foldl (body_field t) acc (seq 0 (Z.to_nat FIELDNUM_MAX)) in
  let acc := body_term "status=" (nextWriteStatus t) acc in
  let acc := body_term "twitter=" (nextWriteTwitter t) acc in
  let acc := body_term "tweet=" (nextWriteTweet t) acc in
  let acc := body_term "created_at=" (nextWriteCreatedAt t) acc in
  fst acc +:+ "&headers=false".

(** [getJSONValueByKey]; positions are kept in [int] variables, as in the
    source. *)
Definition getJSONValueByKey (textToSearch key : string) : Std.outcome string :=
  if Std.length textToSearch =? 0 then Std.Ret ""
  else
    let searchPhrase := dquote +:+ key +:+ (dquote +:+ ":" +:+ dquote) in
    let fromPosition := Int.to_int (Std.find textToSearch searchPhrase 0) in
    if Int.to_size_t fromPosition =? Std.npos then Std.Ret ""
    else
      let fromPosition :=
        Int.to_int (Int.mixed_add fromPosition (Std.length searchPhrase)) in
      let toPosition :=
        Int.to_int (Std.find textToSearch dquote (Int.to_size_t fromPosition)) in
      if Int.to_size_t toPosition =? Std.npos then Std.Ret ""
      else
        match Std.erase textToSearch (Int.to_size_t toPosition) with
        | Std.Ret textToSearch => Std.substr textToSearch (Int.to_size_t fromPosition)
        | Std.Throw e => Std.Throw e
        end.

(** ** Member functions that talk to the service *)

Section Client.

(** The transport: the response the HTTP library produces for a request,
    given the requests made before it. *)
Variable send : list Http.Request -> Http.Request -> Http.Response.

(** [request->send(body.c_str(), strlen(body.c_str()))]. *)
Definition request_send (request : Http.Request) (payload : string) : M Http.Response :=
  fun w =>
    let r := Http.with_body request payload in
    (Std.Ret (send (wire w) r), mkWorld (this w) (wire w ++ [r]) (console w)).

(** The request [writeFields] and [writeRaw] prepare. *)
Definition update_request (writeAPIKey : string) : Http.Request :=
  let request := Http.HttpRequest Http.HTTP_POST "http://api.thingspeak.com/update" in
  let request := Http.set_header request "User-Agent" TS_USER_AGENT in
  let request := Http.set_header request "X-THINGSPEAKAPIKEY" writeAPIKey in
  Http.set_header request "Content-Type" "application/x-www-form-urlencoded".

(** [writeFields]. *)
Definition writeFields (channelNumber : Z) (writeAPIKey : string) : M Z :=
  let* t := get_this in
  let contentLen := getWriteFieldsContentLength t in
  if contentLen =? 0 then
    let* _ := printf ("ERR_SETFIELD_NOT_CALLED" +:+ nl) in
    ret ERR_SETFIELD_NOT_CALLED
  else
    let request := update_request writeAPIKey in
    let body := encode t in
    let* _ := modify_this resetWriteFields in
    let* response := request_send request body in
    let status := Http.get_status_code response in
    if negb (status =? OK_SUCCESS) then
      let* _ := printf ("get_status_code " +:+ Std.to_string status +:+ nl) in
      ret status
    else
      let* entryID := eval (Std.stoi (Http.get_body_as_string response)) in
      let* status :=
        (if entryID =? 0
         then let* _ := printf ("ERR_NOT_INSERTED" +:+ nl) in ret ERR_NOT_INSERTED
         else ret status) in
      let* _ := modify_this resetWriteFields in
      ret status.

(** [writeRaw], the overload that takes the message as a [string]. *)
Definition writeRaw (channelNumber : Z) (postMessage : string) (writeAPIKey : string) : M Z :=
  let body := postMessage +:+ "&headers=false" in
  let request := update_request writeAPIKey in
  let* response := request_send request body in
  let status := Http.get_status_code response in
  if negb (status =? OK_SUCCESS) then ret status
  else
    let* entryID := eval (Std.stoi (Http.get_body_as_string response)) in
    let status := if entryID =? 0 then ERR_NOT_INSERTED else status in
    let* _ := modify_this resetWriteFields in
    ret status.

(** [writeField], the overload that takes the value as a [string]. *)
Definition writeField (channelNumber : Z) (field : Z) (value : string)
    (writeAPIKey : string) : M Z :=
  if (field <? FIELDNUM_MIN) || (field >? FIELDNUM_MAX) then ret ERR_INVALID_FIELD_NUM
  else if Std.length value >? FIELDLENGTH_MAX then ret ERR_OUT_OF_RANGE
  else
    let postMessage := "field" in
    let postMessage := postMessage +:+ Std.to_string field in
    let postMessage := postMessage +:+ "=" in
    let postMessage := postMessage +:+ value in
    writeRaw channelNumber postMessage writeAPIKey.

(** The [int] and [long] overloads of [writeField]. *)
Definition writeField_int (channelNumber : Z) (field : Z) (value : Z)
    (writeAPIKey : string) : M Z :=
  writeField channelNumber field (Std.to_string value) writeAPIKey.

(** [readRaw]; [readAPIKey] is [None] for the null pointer. *)
Definition readRaw (channelNumber : Z) (URLSuffix : string)
    (readAPIKey : option string) : M string :=
  let URL :=
    "http://api.thingspeak.com/channels/" +:+ Std.to_string channelNumber +:+ URLSuffix in
  let request := Http.HttpRequest Http.HTTP_GET (Std.c_str URL) in
  let request := Http.set_header request "User-Agent" TS_USER_AGENT in
  let request :=
    match readAPIKey with
    | Some key => Http.set_header request "X-THINGSPEAKAPIKEY" key
    | None => request
    end in
  let* response := request_send request "" in
  let* _ := modify_this (set_lastReadStatus (Http.get_status_code response)) in
  let result := Std.c_str (Http.get_body_as_string response) in
  let* t := get_this in
  if negb (lastReadStatus t =? OK_SUCCESS) then ret ""
  else ret result.

(** [readStringField]. *)
Definition readStringField (channelNumber : Z) (field : Z)
    (readAPIKey : option string) : M string :=
  if (field <? FIELDNUM_MIN) || (field >? FIELDNUM_MAX) then
    let* _ := modify_this (set_lastReadStatus ERR_INVALID_FIELD_NUM) in
    ret ""
  else
    readRaw channelNumber ("/fields/" +:+ Std.to_string field +:+ "/last") readAPIKey.

(** [readLongField]: the text read goes through [stoi]. *)
Definition readLongField (channelNumber : Z) (field : Z)
    (readAPIKey : option string) : M Z :=
  let* text := readStringField channelNumber field readAPIKey in
  eval (Std.stoi text).

(** [readIntField]. *)
Definition readIntField (channelNumber : Z) (field : Z)
    (readAPIKey : option string) : M Z :=
  readLongField channelNumber field readAPIKey.

(** [readStatus]. *)
Definition readStatus (channelNumber : Z) (readAPIKey : option string) : M string :=
  let* content := readRaw channelNumber "/feeds/last.txt?status=true" readAPIKey in
  let* status := getLastReadStatus in
  if negb (status =? OK_SUCCESS) then ret ""
  else eval (getJSONValueByKey content "status").

(** [readCreatedAt]. *)
Definition readCreatedAt (channelNumber : Z) (readAPIKey : option string) : M string :=
  let* content := readRaw channelNumber "/feeds/last.txt" readAPIKey in
  let* status := getLastReadStatus in
  if negb (status =? OK_SUCCESS) then ret ""
  else eval (getJSONValueByKey content "created_at").

End Client.

(** ** Vocabulary of the statements *)

(** Nothing is staged: every field slot and every text member is empty. *)
Definition nothing_staged (t : ThingSpeak) : Prop :=
  (forall i : nat, (i < 8)%nat -> nextWriteField t !!! i = "") /\
  nextWriteStatus t = "" /\
  nextWriteTwitter t = "" /\
  nextWriteTweet t = "" /\
  nextWriteCreatedAt t = "".

(** The terms of an update in the order the service documents them, each
    with the value staged for it. *)
Definition terms (t : ThingSpeak) : list (string * string) :=
  [ ("field1", nextWriteField t !!! 0%nat);
    ("field2", nextWriteField t !!! 1%nat);
    ("field3", nextWriteField t !!! 2%nat);
    ("field4", nextWriteField t !!! 3%nat);
    ("field5", nextWriteField t !!! 4%nat);
    ("field6", nextWriteField t !!! 5%nat);
    ("field7", nextWriteField t !!! 6%nat);
    ("field8", nextWriteField t !!! 7%nat);
    ("status", nextWriteStatus t);
    ("twitter", nextWriteTwitter t);
    ("tweet", nextWriteTweet t);
    ("created_at", nextWriteCreatedAt t) ].

Definition is_staged (term : string * string) : bool :=
  negb (String.eqb (snd term) "").

Definition render (term : string * string) : string :=
  fst term +:+ "=" +:+ snd term.

(** The body as the specification words it: the staged terms in order,
    joined by ["&"], values verbatim, then ["&headers=false"]. *)
Definition encode_spec (t : ThingSpeak) : string :=
  String.concat "&" (map render (List.filter is_staged (terms t)))
  +:+ "&headers=false".

(** [pat] occurs in [text] at position [p]. *)
Definition occurs_at (pat text : string) (p : nat) : Prop :=
  exists pre post : string, text = pre +:+ pat +:+ post /\ String.length pre = p.

(** The phrase [getJSONValueByKey] looks for: the key in double quotes, a
    colon, and the opening double quote of the value. *)
Definition key_phrase (key : string) : string :=
  dquote +:+ key +:+ dquote +:+ ":" +:+ dquote.

(** The rule by which a write turns the response of the service into its
    result: a status other than 200 is passed on, entry ID 0 means the
    point was not inserted, any other entry ID means success. *)
Definition write_rule (response : Http.Response) (result : Std.outcome Z) : Prop :=
  (Http.get_status_code response <> 200 ->
     result = Std.Ret (Http.get_status_code response)) /\
  (Http.get_status_code response = 200 ->
     Std.stoi (Http.get_body_as_string response) = Std.Ret 0 ->
     result = Std.Ret (-401)) /\
  (Http.get_status_code response = 200 ->
     forall entryID : Z,
       Std.stoi (Http.get_body_as_string response) = Std.Ret entryID ->
       entryID <> 0 ->
       result = Std.Ret 200).

(** The request a read builds for a channel, a URL suffix and an optional
    read key, with the empty payload it is sent with. *)
Definition read_request (channelNumber : Z) (URLSuffix : string)
    (readAPIKey : option string) : Http.Request :=
  let request :=
    Http.set_header
      (Http.HttpRequest Http.HTTP_GET
         (Std.c_str ("http://api.thingspeak.com/channels/"
                     +:+ Std.to_string channelNumber +:+ URLSuffix)))
      "User-Agent" TS_USER_AGENT in
  Http.with_body
    match readAPIKey with
    | Some key => Http.set_header request "X-THINGSPEAKAPIKEY" key
    | None => request
    end "".

(** The loop state of [writeFields] as [getWriteFieldsContentLength] sees
    it: the counter runs one ahead of the body as soon as a term is out,
    because it counts an ["&"] in front of the first term too. *)
Definition in_step (contentLen : Z) (acc : string * bool) : Prop :=
  contentLen = Std.length (fst acc) + (if snd acc then 0 else 1).

(** ** Sample transports and worlds *)

(** A service that answers every request alike. *)
Definition reply (status : Z) (text : string)
    : list Http.Request -> Http.Request -> Http.Response :=
  fun _ _ => Http.mkResponse status text.

(** A freshly constructed object that has not talked to anyone. *)
Definition fresh : World := mkWorld ThingSpeak_new [] [].

(** The object after [setField(1, "10")] and [setField(2, "abc")]. *)
Definition two_fields : World :=
  snd ((let* _ := setField 1 "10" in setField 2 "abc") fresh).

(** The text [{"status":"ok","x":"y"}]. *)
Definition feed_text : string :=
  "{" +:+ key_phrase "status" +:+ "ok" +:+ dquote +:+ ","
  +:+ key_phrase "x" +:+ "y" +:+ dquote +:+ "}".

(** ** The remaining members and the interface as a whole *)

(** [abortWriteRaw] and [abortReadRaw], the two private helpers no member
    calls. *)
Definition abortWriteRaw : M Z :=
  let* _ := modify_this resetWriteFields in
  ret ERR_UNEXPECTED_FAIL.

Definition abortReadRaw : M string :=
  let* _ := modify_this (set_lastReadStatus ERR_UNEXPECTED_FAIL) in
  ret "".

(** One call of a public member function, with its arguments.  The
    overloads that take a C string or no read key are the [string] and
    [None] instances of the calls below; the [float] overloads are left
    out. *)
Inductive call : Type :=
| call_begin
| call_setField (field : Z) (value : string)
| call_setField_int (field value : Z)
| call_setLatitude (latitude : spec_float)
| call_setLongitude (longitude : spec_float)
| call_setElevation (elevation : spec_float)
| call_setStatus (status : string)
| call_setTwitterTweet (twitter tweet : string)
| call_setCreatedAt (createdAt : string)
| call_writeFields (channelNumber : Z) (writeAPIKey : string)
| call_writeRaw (channelNumber : Z) (postMessage writeAPIKey : string)
| call_writeField (channelNumber field : Z) (value writeAPIKey : string)
| call_writeField_int (channelNumber field value : Z) (writeAPIKey : string)
| call_readRaw (channelNumber : Z) (URLSuffix : string) (readAPIKey : option string)
| call_readStringField (channelNumber field : Z) (readAPIKey : option string)
| call_readLongField (channelNumber field : Z) (readAPIKey : option string)
| call_readIntField (channelNumber field : Z) (readAPIKey : option string)
| call_readStatus (channelNumber : Z) (readAPIKey : option string)
| call_readCreatedAt (channelNumber : Z) (readAPIKey : option string)
| call_getLastReadStatus.

(** The world a call leaves behind, whether it returns or throws. *)
Definition perform (send : list Http.Request -> Http.Request -> Http.Response)
    (c : call) (w : World) : World :=
  match c with
  | call_begin => snd (begin w)
  | call_setField field value => snd (setField field value w)
  | call_setField_int field value => snd (setField_int field value w)
  | call_setLatitude x => snd (setLatitude x w)
  | call_setLongitude x => snd (setLongitude x w)
  | call_setElevation x => snd (setElevation x w)
  | call_setStatus status => snd (setStatus status w)
  | call_setTwitterTweet twitter tweet => snd (setTwitterTweet twitter tweet w)
  | call_setCreatedAt createdAt => snd (setCreatedAt createdAt w)
  | call_writeFields ch key => snd (writeFields send ch key w)
  | call_writeRaw ch msg key => snd (writeRaw send ch msg key w)
  | call_writeField ch field value key => snd (writeField send ch field value key w)
  | call_writeField_int ch field value key =>
      snd (writeField_int send ch field value key w)
  | call_readRaw ch suffix key => snd (readRaw send ch suffix key w)
  | call_readStringField ch field key => snd (readStringField send ch field key w)
  | call_readLongField ch field key => snd (readLongField send ch field key w)
  | call_readIntField ch field key => snd (readIntField send ch field key w)
  | call_readStatus ch key => snd (readStatus send ch key w)
  | call_readCreatedAt ch key => snd (readCreatedAt send ch key w)
  | call_getLastReadStatus => snd (getLastReadStatus w)
  end.

(** The calls that read from the service. *)
Definition is_read (c : call) : bool :=
  match c with
  | call_readRaw _ _ _ | call_readStringField _ _ _ | call_readLongField _ _ _
  | call_readIntField _ _ _ | call_readStatus _ _ | call_readCreatedAt _ _ => true
  | _ => false
  end.

(** The calls that neither read nor initialise: the setters, the writes
    and [getLastReadStatus]. *)
Definition is_write_side (c : call) : bool :=
  match c with
  | call_begin => false
  | _ => negb (is_read c)
  end.

(** The calls that only stage values. *)
Definition is_local (c : call) : bool :=
  match c with
  | call_begin | call_setField _ _ | call_setField_int _ _ | call_setLatitude _
  | call_setLongitude _ | call_setElevation _ | call_setStatus _
  | call_setTwitterTweet _ _ | call_setCreatedAt _ | call_getLastReadStatus => true
  | _ => false
  end.

(** The worlds a program can bring about: it constructs the object and
    then makes calls, against a given transport. *)
Inductive reachable (send : list Http.Request -> Http.Request -> Http.Response)
    : World -> Prop :=
| reach_fresh : reachable send fresh
| reach_call (c : call) (w : World) :
    reachable send w -> reachable send (perform send c w).

(** The staged text of an object: everything [writeFields] would encode. *)
Definition pending (t : ThingSpeak) : list string * (string * string * string * string) :=
  (nextWriteField t,
   (nextWriteStatus t, nextWriteTwitter t, nextWriteTweet t, nextWriteCreatedAt t)).

(** A string without a NUL byte, that is, one a C string can carry whole. *)
Fixpoint no_nul (s : string) : Prop :=
  match s with
  | EmptyString => True
  | String c s' => c <> zero /\ no_nul s'
  end.

(** * Facts *)

(** ** Machine integers *)

Lemma to_int_small (z : Z) : Int.INT_MIN <= z <= Int.INT_MAX -> Int.to_int z = z.
Proof.
  unfold Int.to_int, Int.INT_MIN, Int.INT_MAX. intros H.
  rewrite Z.mod_small by lia. lia.
Qed.

Lemma to_size_t_small (z : Z) : 0 <= z <= Int.SIZE_MAX -> Int.to_size_t z = z.
Proof.
  unfold Int.to_size_t, Int.SIZE_MAX. intros H. apply Z.mod_small. lia.
Qed.

Lemma int_add_small (a b : Z) :
  Int.INT_MIN <= a + b <= Int.INT_MAX -> Int.int_add a b = a + b.
Proof. apply to_int_small. Qed.

Lemma mixed_add_small (a b : Z) :
  0 <= a -> 0 <= b -> a + b <= Int.INT_MAX ->
  Int.to_int (Int.mixed_add a b) = a + b.
Proof.
  unfold Int.mixed_add, Int.INT_MAX. intros Ha Hb Hab.
  rewrite (to_size_t_small a) by (unfold Int.SIZE_MAX; lia).
  rewrite to_size_t_small by (unfold Int.SIZE_MAX; lia).
  apply to_int_small. unfold Int.INT_MIN, Int.INT_MAX. lia.
Qed.

(** ** Strings *)

Lemma append_cons (x : ascii) (a b : string) :
  String x a +:+ b = String x (a +:+ b).
Proof. reflexivity. Qed.

Lemma append_assoc (a b c : string) : (a +:+ b) +:+ c = a +:+ (b +:+ c).
Proof.
  induction a as [|x a IH]; [reflexivity |].
  rewrite !append_cons. now f_equal.
Qed.

Lemma append_nil_r (a : string) : a +:+ "" = a.
Proof.
  induction a as [|x a IH]; [reflexivity |].
  rewrite append_cons. now f_equal.
Qed.

Lemma length_append (a b : string) :
  String.length (a +:+ b) = (String.length a + String.length b)%nat.
Proof.
  induction a as [|x a IH]; [reflexivity |].
  rewrite append_cons. cbn [String.length]. now rewrite IH.
Qed.

Lemma std_length_append (a b : string) :
  Std.length (a +:+ b) = Std.length a + Std.length b.
Proof. unfold Std.length. rewrite length_append. lia. Qed.

Lemma std_length_nonneg (a : string) : 0 <= Std.length a.
Proof. unfold Std.length. lia. Qed.

Lemma std_length_pos_iff (a : string) : (Std.length a >? 0) = true <-> a <> "".
Proof.
  unfold Std.length. rewrite Z.gtb_ltb, Z.ltb_lt.
  destruct a as [|x a]; cbn [String.length]; split; intros H;
    try discriminate; try lia.
  contradiction.
Qed.

Lemma std_length_empty_iff (a : string) : (Std.length a >? 0) = false <-> a = "".
Proof.
  unfold Std.length. rewrite Z.gtb_ltb, Z.ltb_ge.
  destruct a as [|x a]; cbn [String.length]; split; intros H;
    try discriminate; try lia.
  reflexivity.
Qed.

(** ** The array of fields *)

Lemma lookup_total_insert_same (l : list string) (i : nat) :
  <[i := ""]> l !!! i = "".
Proof.
  destruct (Nat.lt_ge_cases i (List.length l)) as [Hlt | Hge].
  - now apply list_lookup_total_insert_eq.
  - rewrite list_insert_ge by exact Hge.
    rewrite list_lookup_total_alt, lookup_ge_None_2 by exact Hge. reflexivity.
Qed.

Lemma resetWriteFields_field (t : ThingSpeak) (i : nat) :
  (i < 8)%nat -> nextWriteField (resetWriteFields t) !!! i = "".
Proof.
  intros Hi. unfold resetWriteFields. cbn [nextWriteField].
  change (Z.to_nat FIELDNUM_MAX) with 8%nat. cbn [seq foldl].
  do 8 (destruct i as [|i];
        [ repeat (rewrite list_lookup_total_insert_ne by lia);
          apply lookup_total_insert_same | ]).
  lia.
Qed.

Lemma resetWriteFields_length (t : ThingSpeak) :
  List.length (nextWriteField (resetWriteFields t)) = List.length (nextWriteField t).
Proof.
  unfold resetWriteFields. cbn [nextWriteField].
  change (Z.to_nat FIELDNUM_MAX) with 8%nat. cbn [seq foldl].
  now rewrite !length_insert.
Qed.

Lemma resetWriteFields_nothing_staged (t : ThingSpeak) :
  nothing_staged (resetWriteFields t).
Proof.
  unfold nothing_staged. split; [| now cbn].
  intros i Hi. now apply resetWriteFields_field.
Qed.

Lemma resetWriteFields_wf (t : ThingSpeak) : wf t -> wf (resetWriteFields t).
Proof. unfold wf. now rewrite resetWriteFields_length. Qed.

Lemma ThingSpeak_new_wf : wf ThingSpeak_new.
Proof. reflexivity. Qed.

Lemma loop_indices : Forall (fun i : nat => (i < 8)%nat) (seq 0 (Z.to_nat FIELDNUM_MAX)).
Proof. change (Z.to_nat FIELDNUM_MAX) with 8%nat. cbn [seq]. repeat constructor; lia. Qed.

(** ** Nothing staged *)

Lemma contentLen_field_empty (t : ThingSpeak) (c : Z) (i : nat) :
  nextWriteField t !!! i = "" -> contentLen_field t c i = c.
Proof. intros H. unfold contentLen_field. now rewrite H. Qed.

Lemma contentLen_loop_empty (t : ThingSpeak) (l : list nat) (c : Z) :
  Forall (fun i : nat => nextWriteField t !!! i = "") l ->
  foldl (contentLen_field t) c l = c.
Proof.
  induction 1 as [| i l Hi _ IH]; cbn [foldl]; [reflexivity |].
  now rewrite contentLen_field_empty.
Qed.

Lemma contentLength_nothing_staged (t : ThingSpeak) :
  nothing_staged t -> getWriteFieldsContentLength t = 0.
Proof.
  intros (Hf & Hs & Htw & Htt & Hc). unfold getWriteFieldsContentLength.
  rewrite contentLen_loop_empty.
  - rewrite Hs, Htw, Htt, Hc. reflexivity.
  - eapply Forall_impl; [apply loop_indices |]. cbn. intros i Hi. now apply Hf.
Qed.

(** ** Setters *)

(** C5: [setField(i, v)] returns -201 when [i < 1] or [i > 8] and -101 when
    [v] is longer than 255 bytes (the index is tested first, so an invalid
    index with an over-long value yields -201); in every failing case the
    whole world, and so the whole pending buffer, is unchanged.  When
    [1 <= i <= 8] and [v] has at most 255 bytes it returns 200, slot [i-1]
    holds [v] afterwards, and every other slot and every other member is
    as before. *)
Theorem setField_spec (field : Z) (value : string) (w : World) :
  wf (this w) ->
  (field < 1 \/ field > 8 ->
     setField field value w = (Std.Ret (-201), w)) /\
  (1 <= field <= 8 -> Std.length value > 255 ->
     setField field value w = (Std.Ret (-101), w)) /\
  (Std.length value > 255 ->
     snd (setField field value w) = w /\
     (fst (setField field value w) = Std.Ret (-201) \/
      fst (setField field value w) = Std.Ret (-101))) /\
  (1 <= field <= 8 -> Std.length value <= 255 ->
     let w' := snd (setField field value w) in
     fst (setField field value w) = Std.Ret 200 /\
     nextWriteField (this w') !!! Z.to_nat (field - 1) = value /\
     (forall j : nat, j <> Z.to_nat (field - 1) ->
        nextWriteField (this w') !!! j = nextWriteField (this w) !!! j) /\
     wf (this w') /\
     nextWriteLatitude (this w') = nextWriteLatitude (this w) /\
     nextWriteLongitude (this w') = nextWriteLongitude (this w) /\
     nextWriteElevation (this w') = nextWriteElevation (this w) /\
     lastReadStatus (this w') = lastReadStatus (this w) /\
     nextWriteStatus (this w') = nextWriteStatus (this w) /\
     nextWriteTwitter (this w') = nextWriteTwitter (this w) /\
     nextWriteTweet (this w') = nextWriteTweet (this w) /\
     nextWriteCreatedAt (this w') = nextWriteCreatedAt (this w) /\
     wire w' = wire w /\ console w' = console w).
Proof.
  intros Hwf. unfold setField, FIELDNUM_MIN, FIELDNUM_MAX, FIELDLENGTH_MAX.
  destruct (Z.ltb_spec field 1) as [Hlo | Hlo];
    [| destruct (Z.gtb_spec field 8) as [Hhi | Hhi]]; cbn [orb].
  - repeat split; intros; try lia; auto.
  - repeat split; intros; try lia; auto.
  - destruct (Z.gtb_spec (Std.length value) 255) as [Hlen | Hlen].
    + repeat split; intros; try lia; auto.
    + unfold bind, modify_this, ret. cbn [fst snd this wire console].
      split; [intros; lia |]. split; [intros; lia |]. split; [intros; lia |].
      intros _ _. cbn zeta.
      unfold set_nextWriteField; cbn [nextWriteField nextWriteLatitude
        nextWriteLongitude nextWriteElevation lastReadStatus nextWriteStatus
        nextWriteTwitter nextWriteTweet nextWriteCreatedAt].
      repeat split.
      * apply list_lookup_total_insert_eq. unfold wf, FIELDNUM_MAX in Hwf.
        rewrite Hwf. lia.
      * intros j Hj. now apply list_lookup_total_insert_ne.
      * unfold wf. cbn [nextWriteField]. now rewrite length_insert.
Qed.

(** The setters enforce the 255-byte limit, so the limit and the shape of
    the array are invariants of the object. *)
Lemma ThingSpeak_new_bounded : bounded ThingSpeak_new.
Proof.
  unfold bounded, within_limit. split; [| repeat split; vm_compute; discriminate].
  intros i Hi. do 8 (destruct i as [|i]; [vm_compute; discriminate |]). lia.
Qed.

Lemma resetWriteFields_bounded (t : ThingSpeak) : bounded (resetWriteFields t).
Proof.
  destruct (resetWriteFields_nothing_staged t) as (Hf & _).
  unfold bounded, within_limit. split; [| repeat split; vm_compute; discriminate].
  intros i Hi. rewrite (Hf i Hi). vm_compute; discriminate.
Qed.

Lemma setField_invariant (field : Z) (value : string) (w : World) :
  wf (this w) -> bounded (this w) ->
  wf (this (snd (setField field value w))) /\
  bounded (this (snd (setField field value w))).
Proof.
  intros Hwf Hb. unfold setField, FIELDNUM_MIN, FIELDNUM_MAX, FIELDLENGTH_MAX.
  destruct (Z.ltb_spec field 1); [now split |].
  destruct (Z.gtb_spec field 8); [now split |]. cbn [orb].
  destruct (Z.gtb_spec (Std.length value) 255) as [| Hv]; [now split |].
  unfold bind, modify_this, ret. cbn [fst snd this].
  destruct Hb as (Hf & Hrest). split.
  - unfold wf, set_nextWriteField. cbn [nextWriteField]. now rewrite length_insert.
  - split; [| exact Hrest]. intros i Hi.
    unfold set_nextWriteField. cbn [nextWriteField].
    destruct (Nat.eq_dec i (Z.to_nat (field - 1))) as [-> | Hne].
    + rewrite list_lookup_total_insert_eq; [exact Hv |].
      unfold wf, FIELDNUM_MAX in Hwf. rewrite Hwf. lia.
    + rewrite list_lookup_total_insert_ne by congruence. now apply Hf.
Qed.

Lemma text_setters_invariant (w : World) :
  bounded (this w) ->
  (forall status : string, bounded (this (snd (setStatus status w)))) /\
  (forall twitter tweet : string, bounded (this (snd (setTwitterTweet twitter tweet w)))) /\
  (forall createdAt : string, bounded (this (snd (setCreatedAt createdAt w)))).
Proof.
  intros Hb. pose proof Hb as (Hf & Hs & Htw & Htt & Hc).
  unfold setStatus, setTwitterTweet, setCreatedAt, FIELDLENGTH_MAX.
  split; [| split].
  - intros status. destruct (Z.gtb_spec (Std.length status) 255); [exact Hb |].
    repeat split; assumption.
  - intros twitter tweet.
    destruct (Z.gtb_spec (Std.length twitter) 255); [exact Hb |].
    destruct (Z.gtb_spec (Std.length tweet) 255); [exact Hb |].
    repeat split; assumption.
  - intros createdAt. destruct (Z.gtb_spec (Std.length createdAt) 255); [exact Hb |].
    repeat split; assumption.
Qed.

(** ** Running a member function *)

Ltac run_member :=
  repeat progress
    (unfold bind, ret, eval, get_this, modify_this, printf, request_send,
       getLastReadStatus;
     cbn [fst snd this wire console]).

Ltac case_status :=
  match goal with
  | |- context [negb (?s =? OK_SUCCESS)] =>
      unfold OK_SUCCESS; destruct (Z.eqb_spec s 200) as [Hstatus | Hstatus]; cbn [negb]
  end.

Section ClientFacts.

Variable send : list Http.Request -> Http.Request -> Http.Response.

(** ** Writes *)

(** C6: with nothing staged the content length is 0 and [writeFields]
    returns -210 without handing any request to the transport; the object
    is untouched and only the diagnostic line is printed. *)
Theorem writeFields_nothing_staged (channelNumber : Z) (writeAPIKey : string) (w : World) :
  nothing_staged (this w) ->
  getWriteFieldsContentLength (this w) = 0 /\
  writeFields send channelNumber writeAPIKey w =
    (Std.Ret (-210),
     mkWorld (this w) (wire w) (console w ++ ["ERR_SETFIELD_NOT_CALLED" +:+ nl])).
Proof.
  intros H. pose proof (contentLength_nothing_staged _ H) as H0.
  split; [exact H0 |].
  unfold writeFields. run_member. rewrite H0. reflexivity.
Qed.

Lemma writeFields_run (channelNumber : Z) (writeAPIKey : string) (w : World) :
  getWriteFieldsContentLength (this w) <> 0 ->
  let request := Http.with_body (update_request writeAPIKey) (encode (this w)) in
  let response := send (wire w) request in
  let w1 := mkWorld (resetWriteFields (this w)) (wire w ++ [request]) (console w) in
  writeFields send channelNumber writeAPIKey w =
    if negb (Http.get_status_code response =? OK_SUCCESS) then
      (Std.Ret (Http.get_status_code response),
       mkWorld (this w1) (wire w1)
         (console w ++ ["get_status_code "
                        +:+ Std.to_string (Http.get_status_code response) +:+ nl]))
    else
      match Std.stoi (Http.get_body_as_string response) with
      | Std.Ret entryID =>
          if entryID =? 0 then
            (Std.Ret ERR_NOT_INSERTED,
             mkWorld (resetWriteFields (this w1)) (wire w1)
               (console w ++ ["ERR_NOT_INSERTED" +:+ nl]))
          else
            (Std.Ret (Http.get_status_code response),
             mkWorld (resetWriteFields (this w1)) (wire w1) (console w))
      | Std.Throw e => (Std.Throw e, w1)
      end.
Proof.
  intros H. cbn zeta. unfold writeFields. run_member.
  destruct (Z.eqb_spec (getWriteFieldsContentLength (this w)) 0) as [E | _];
    [contradiction |].
  destruct (negb _); [reflexivity |].
  destruct (Std.stoi _) as [entryID | e]; [| reflexivity].
  destruct (entryID =? 0); reflexivity.
Qed.

(** What [writeFields] hands to the transport once something is staged:
    one request, whose payload is the body it built. *)
Lemma writeFields_request (channelNumber : Z) (writeAPIKey : string) (w : World) :
  getWriteFieldsContentLength (this w) <> 0 ->
  wire (snd (writeFields send channelNumber writeAPIKey w)) =
  (wire w ++ [Http.with_body (update_request writeAPIKey) (encode (this w))])%list.
Proof.
  intros Hlen. rewrite writeFields_run by exact Hlen. cbn zeta.
  destruct (negb _); [reflexivity |].
  destruct (Std.stoi _) as [entryID | e]; [| reflexivity].
  destruct (entryID =? 0); reflexivity.
Qed.

Lemma writeRaw_run (channelNumber : Z) (postMessage writeAPIKey : string) (w : World) :
  let request :=
    Http.with_body (update_request writeAPIKey) (postMessage +:+ "&headers=false") in
  let response := send (wire w) request in
  let w1 := mkWorld (this w) (wire w ++ [request]) (console w) in
  writeRaw send channelNumber postMessage writeAPIKey w =
    if negb (Http.get_status_code response =? OK_SUCCESS) then
      (Std.Ret (Http.get_status_code response), w1)
    else
      match Std.stoi (Http.get_body_as_string response) with
      | Std.Ret entryID =>
          (Std.Ret (if entryID =? 0 then ERR_NOT_INSERTED
                    else Http.get_status_code response),
           mkWorld (resetWriteFields (this w)) (wire w1) (console w))
      | Std.Throw e => (Std.Throw e, w1)
      end.
Proof.
  cbn zeta. unfold writeRaw. run_member.
  destruct (negb _); [reflexivity |].
  destruct (Std.stoi _) as [entryID | e]; reflexivity.
Qed.

Lemma write_rule_writeRaw (channelNumber : Z) (postMessage writeAPIKey : string) (w : World) :
  write_rule
    (send (wire w)
       (Http.with_body (update_request writeAPIKey) (postMessage +:+ "&headers=false")))
    (fst (writeRaw send channelNumber postMessage writeAPIKey w)).
Proof.
  rewrite writeRaw_run. cbn zeta. unfold write_rule.
  case_status.
  - rewrite Hstatus. repeat split.
    + intros H; contradiction.
    + intros _ H0. rewrite H0. reflexivity.
    + intros _ entryID H0 Hne. rewrite H0.
      destruct (Z.eqb_spec entryID 0); [contradiction | reflexivity].
  - repeat split; intros; try contradiction; reflexivity.
Qed.

(** C3: every write turns the response of the transport into its result
    by the same rule.  For a status other than 200 the result is that
    status; for status 200 and a body that parses to entry ID 0 it is -401;
    for status 200 and a non-zero entry ID it is 200.  This holds for
    [writeFields] once something is staged, for [writeRaw], and for
    [writeField] once its arguments pass validation. *)
Theorem write_result_rule (channelNumber : Z) (writeAPIKey : string) (w : World) :
  (getWriteFieldsContentLength (this w) <> 0 ->
   write_rule
     (send (wire w) (Http.with_body (update_request writeAPIKey) (encode (this w))))
     (fst (writeFields send channelNumber writeAPIKey w))) /\
  (forall postMessage : string,
   write_rule
     (send (wire w)
        (Http.with_body (update_request writeAPIKey) (postMessage +:+ "&headers=false")))
     (fst (writeRaw send channelNumber postMessage writeAPIKey w))) /\
  (forall (field : Z) (value : string),
   1 <= field <= 8 -> Std.length value <= 255 ->
   write_rule
     (send (wire w)
        (Http.with_body (update_request writeAPIKey)
           (((("field" +:+ Std.to_string field) +:+ "=") +:+ value) +:+ "&headers=false")))
     (fst (writeField send channelNumber field value writeAPIKey w))).
Proof.
  split; [| split].
  - intros Hlen. rewrite writeFields_run by exact Hlen. cbn zeta.
    unfold write_rule. case_status.
    + rewrite Hstatus. repeat split.
      * intros H; contradiction.
      * intros _ H0. rewrite H0. reflexivity.
      * intros _ entryID H0 Hne. rewrite H0.
        destruct (Z.eqb_spec entryID 0); [contradiction | reflexivity].
    + repeat split; intros; try contradiction; reflexivity.
  - intros postMessage. apply write_rule_writeRaw.
  - intros field value Hf Hv. unfold writeField, FIELDNUM_MIN, FIELDNUM_MAX, FIELDLENGTH_MAX.
    destruct (Z.ltb_spec field 1); [lia |].
    destruct (Z.gtb_spec field 8); [lia |].
    destruct (Z.gtb_spec (Std.length value) 255); [lia |].
    cbn [orb]. apply write_rule_writeRaw.
Qed.

(** [writeFields] empties the buffer before it calls the transport, so
    the buffer is empty afterwards whatever the transport answers, even
    when the body of the answer cannot be parsed. *)
Lemma writeFields_clears (channelNumber : Z) (writeAPIKey : string) (w : World) :
  getWriteFieldsContentLength (this w) <> 0 ->
  let w' := snd (writeFields send channelNumber writeAPIKey w) in
  nothing_staged (this w') /\ getWriteFieldsContentLength (this w') = 0.
Proof.
  intros Hlen. cbn zeta. rewrite writeFields_run by exact Hlen. cbn zeta.
  assert (E : forall t, nothing_staged (resetWriteFields t) /\
                        getWriteFieldsContentLength (resetWriteFields t) = 0).
  { intros t. split; [apply resetWriteFields_nothing_staged |].
    apply contentLength_nothing_staged, resetWriteFields_nothing_staged. }
  destruct (negb _); [apply E |].
  destruct (Std.stoi _) as [entryID | e]; [| apply E].
  destruct (entryID =? 0); apply E.
Qed.

(** [writeRaw] returns early on a status other than 200, before its call
    of [resetWriteFields]: the object is then exactly as it was. *)
Lemma writeRaw_failure_keeps (channelNumber : Z) (postMessage writeAPIKey : string)
    (w : World) :
  Http.get_status_code
    (send (wire w)
       (Http.with_body (update_request writeAPIKey) (postMessage +:+ "&headers=false")))
  <> 200 ->
  this (snd (writeRaw send channelNumber postMessage writeAPIKey w)) = this w.
Proof.
  intros H. rewrite writeRaw_run. cbn zeta. case_status; [contradiction |].
  reflexivity.
Qed.

(** C7 (as amended): [writeRaw] appends ["&headers=false"] to the message
    it is given and hands exactly that to the transport; it never reads the
    staged buffer, since its result, the request it makes and what it prints
    are the same whatever the object holds.  It does write the buffer: when
    the transport answers 200 and the body parses as an entry ID, the
    staged fields, status, twitter, tweet and created_at are cleared. *)
Theorem writeRaw_effect (channelNumber : Z) (postMessage writeAPIKey : string) (w : World) :
  let request :=
    Http.with_body (update_request writeAPIKey) (postMessage +:+ "&headers=false") in
  let response := send (wire w) request in
  let out := writeRaw send channelNumber postMessage writeAPIKey w in
  Http.body request = Std.c_str (postMessage +:+ "&headers=false") /\
  wire (snd out) = (wire w ++ [request])%list /\
  (forall t' : ThingSpeak,
     let out' :=
       writeRaw send channelNumber postMessage writeAPIKey
         (mkWorld t' (wire w) (console w)) in
     fst out' = fst out /\ wire (snd out') = wire (snd out) /\
     console (snd out') = console (snd out)) /\
  (Http.get_status_code response = 200 ->
   forall entryID : Z,
     Std.stoi (Http.get_body_as_string response) = Std.Ret entryID ->
     nothing_staged (this (snd out)) /\
     getWriteFieldsContentLength (this (snd out)) = 0 /\
     lastReadStatus (this (snd out)) = lastReadStatus (this w)).
Proof.
  cbn zeta. split; [reflexivity |]. split; [| split].
  - rewrite writeRaw_run. cbn zeta.
    destruct (negb _); [reflexivity |].
    destruct (Std.stoi _); reflexivity.
  - intros t'. rewrite !writeRaw_run. cbn zeta. cbn [this wire console].
    destruct (negb _); [repeat split |].
    destruct (Std.stoi _); repeat split.
  - intros Hs entryID He. rewrite writeRaw_run. cbn zeta.
    rewrite Hs, He. cbn [negb Z.eqb OK_SUCCESS snd this].
    change (negb (200 =? OK_SUCCESS)) with false. cbn [snd this].
    split; [apply resetWriteFields_nothing_staged |].
    split; [| reflexivity].
    apply contentLength_nothing_staged, resetWriteFields_nothing_staged.
Qed.

(** ** Reads *)

Lemma readRaw_run (channelNumber : Z) (URLSuffix : string)
    (readAPIKey : option string) (w : World) :
  let request := read_request channelNumber URLSuffix readAPIKey in
  let response := send (wire w) request in
  readRaw send channelNumber URLSuffix readAPIKey w =
    (Std.Ret (if Http.get_status_code response =? 200
              then Std.c_str (Http.get_body_as_string response) else ""),
     mkWorld (set_lastReadStatus (Http.get_status_code response) (this w))
       (wire w ++ [request]) (console w)).
Proof.
  cbn zeta. unfold readRaw, read_request. run_member.
  cbn [lastReadStatus set_lastReadStatus]. unfold OK_SUCCESS.
  destruct readAPIKey as [key |];
    match goal with |- context [?s =? 200] => destruct (s =? 200) end;
    reflexivity.
Qed.

(** The reads that return text store the status the transport yields in
    [lastReadStatus] and return the empty string, without throwing,
    whenever that status is not 200. *)
Lemma text_reads_on_failure (channelNumber : Z) (readAPIKey : option string) (w : World) :
  (forall URLSuffix : string,
     let response := send (wire w) (read_request channelNumber URLSuffix readAPIKey) in
     let out := readRaw send channelNumber URLSuffix readAPIKey w in
     lastReadStatus (this (snd out)) = Http.get_status_code response /\
     (Http.get_status_code response <> 200 -> fst out = Std.Ret "") /\
     (Http.get_status_code response = 200 ->
        fst out = Std.Ret (Std.c_str (Http.get_body_as_string response)))) /\
  (forall field : Z, 1 <= field <= 8 ->
     let response :=
       send (wire w)
         (read_request channelNumber ("/fields/" +:+ Std.to_string field +:+ "/last")
            readAPIKey) in
     let out := readStringField send channelNumber field readAPIKey w in
     lastReadStatus (this (snd out)) = Http.get_status_code response /\
     (Http.get_status_code response <> 200 -> fst out = Std.Ret "")) /\
  (let response :=
     send (wire w) (read_request channelNumber "/feeds/last.txt?status=true" readAPIKey) in
   let out := readStatus send channelNumber readAPIKey w in
   lastReadStatus (this (snd out)) = Http.get_status_code response /\
   (Http.get_status_code response <> 200 -> fst out = Std.Ret "")) /\
  (let response :=
     send (wire w) (read_request channelNumber "/feeds/last.txt" readAPIKey) in
   let out := readCreatedAt send channelNumber readAPIKey w in
   lastReadStatus (this (snd out)) = Http.get_status_code response /\
   (Http.get_status_code response <> 200 -> fst out = Std.Ret "")).
Proof.
  split; [| split; [| split]].
  - intros URLSuffix. cbn zeta. rewrite readRaw_run. cbn zeta.
    cbn [fst snd this lastReadStatus set_lastReadStatus].
    split; [reflexivity |].
    split; intros H.
    + destruct (Z.eqb_spec (Http.get_status_code
        (send (wire w) (read_request channelNumber URLSuffix readAPIKey))) 200);
        [contradiction | reflexivity].
    + rewrite H. reflexivity.
  - intros field Hf. cbn zeta. unfold readStringField, FIELDNUM_MIN, FIELDNUM_MAX.
    destruct (Z.ltb_spec field 1); [lia |].
    destruct (Z.gtb_spec field 8); [lia |].
    cbn [orb]. rewrite readRaw_run. cbn zeta.
    cbn [fst snd this lastReadStatus set_lastReadStatus].
    split; [reflexivity |]. intros Hne.
    match goal with |- context [?s =? 200] => destruct (Z.eqb_spec s 200) end;
      [contradiction | reflexivity].
  - cbn zeta. unfold readStatus, bind. rewrite readRaw_run. cbn zeta.
    run_member. cbn [lastReadStatus set_lastReadStatus].
    case_status; cbn [fst snd this lastReadStatus set_lastReadStatus].
    + split; [reflexivity |]. intros H; contradiction.
    + split; reflexivity.
  - cbn zeta. unfold readCreatedAt, bind. rewrite readRaw_run. cbn zeta.
    run_member. cbn [lastReadStatus set_lastReadStatus].
    case_status; cbn [fst snd this lastReadStatus set_lastReadStatus].
    + split; [reflexivity |]. intros H; contradiction.
    + split; reflexivity.
Qed.

(** C10: for a field index below 1 or above 8, [readStringField] records
    -201 in [lastReadStatus] and returns the empty string; no request
    reaches the transport, nothing else in the object changes, and
    [getLastReadStatus] then returns -201. *)
Theorem readStringField_invalid_field (channelNumber field : Z)
    (readAPIKey : option string) (w : World) :
  field < 1 \/ field > 8 ->
  let out := readStringField send channelNumber field readAPIKey w in
  fst out = Std.Ret "" /\
  snd out = mkWorld (set_lastReadStatus (-201) (this w)) (wire w) (console w) /\
  wire (snd out) = wire w /\
  lastReadStatus (this (snd out)) = -201 /\
  fst (getLastReadStatus (snd out)) = Std.Ret (-201).
Proof.
  intros H. cbn zeta. unfold readStringField, FIELDNUM_MIN, FIELDNUM_MAX.
  destruct (Z.ltb_spec field 1); [| destruct (Z.gtb_spec field 8); [| lia]];
    cbn [orb]; run_member; repeat split.
Qed.

End ClientFacts.

(** * The content length and the encoded body *)

(** ** One step of either computation *)

Lemma field_number_length (i : nat) :
  (i < 8)%nat ->
  Std.length (Std.to_string (Int.to_int (Int.to_size_t (Z.of_nat i + 1)))) = 1.
Proof.
  intros Hi. do 8 (destruct i as [|i]; [reflexivity |]). lia.
Qed.

Lemma body_field_empty (t : ThingSpeak) (acc : string * bool) (i : nat) :
  nextWriteField t !!! i = "" -> body_field t acc i = acc.
Proof. intros H. unfold body_field. destruct acc. now rewrite H. Qed.

Lemma body_field_staged (t : ThingSpeak) (body : string) (first : bool) (i : nat) :
  (i < 8)%nat -> nextWriteField t !!! i <> "" ->
  snd (body_field t (body, first) i) = false /\
  Std.length (fst (body_field t (body, first) i)) =
    Std.length body + (if first then 0 else 1) + 7
    + Std.length (nextWriteField t !!! i).
Proof.
  intros Hi Hne. unfold body_field.
  apply std_length_pos_iff in Hne. rewrite Hne. cbn [fst snd].
  split; [reflexivity |].
  rewrite !std_length_append, (field_number_length i Hi).
  change (Std.length "field") with 5. change (Std.length "=") with 1.
  destruct first; cbn [negb]; rewrite ?std_length_append;
    change (Std.length "&") with 1; lia.
Qed.

Lemma body_term_empty (name : string) (acc : string * bool) :
  body_term name "" acc = acc.
Proof. destruct acc. reflexivity. Qed.

Lemma body_term_staged (name value body : string) (first : bool) :
  value <> "" ->
  snd (body_term name value (body, first)) = false /\
  Std.length (fst (body_term name value (body, first))) =
    Std.length body + (if first then 0 else 1) + Std.length name + Std.length value.
Proof.
  intros Hne. unfold body_term.
  apply std_length_pos_iff in Hne. rewrite Hne. cbn [fst snd].
  split; [reflexivity |].
  rewrite !std_length_append.
  destruct first; cbn [negb]; rewrite ?std_length_append;
    change (Std.length "&") with 1; lia.
Qed.

Lemma contentLen_term_staged (extra : Z) (value : string) (c : Z) :
  value <> "" -> 0 <= c -> 0 <= extra ->
  c + extra + Std.length value <= Int.INT_MAX ->
  contentLen_term extra value c = c + extra + Std.length value.
Proof.
  intros Hne Hc He Hmax. unfold contentLen_term.
  apply std_length_pos_iff in Hne. rewrite Hne.
  pose proof (std_length_nonneg value).
  rewrite int_add_small by (unfold Int.INT_MIN, Int.INT_MAX in *; lia).
  apply mixed_add_small; lia.
Qed.

Lemma contentLen_field_staged (t : ThingSpeak) (c : Z) (i : nat) :
  (i < 8)%nat -> nextWriteField t !!! i <> "" -> 0 <= c ->
  c + 8 + Std.length (nextWriteField t !!! i) <= Int.INT_MAX ->
  contentLen_field t c i = c + 8 + Std.length (nextWriteField t !!! i).
Proof.
  intros Hi Hne Hc Hmax. unfold contentLen_field.
  pose proof (contentLen_term_staged 8 _ c Hne Hc ltac:(lia) Hmax) as E.
  unfold contentLen_term in E.
  apply std_length_pos_iff in Hne. rewrite Hne in E |- *. rewrite E.
  destruct (Z.gtb_spec (Z.of_nat i) 9); [lia |].
  destruct (Z.gtb_spec (Z.of_nat i) 99); [lia |]. reflexivity.
Qed.

(** The two computations stay in step over one field, and the counter
    grows by at most 263. *)
Lemma field_in_step (t : ThingSpeak) (c : Z) (acc : string * bool) (i : nat) :
  (i < 8)%nat -> within_limit (nextWriteField t !!! i) ->
  0 <= c -> c + 263 <= Int.INT_MAX -> in_step c acc ->
  in_step (contentLen_field t c i) (body_field t acc i) /\
  c <= contentLen_field t c i <= c + 263 /\
  (snd acc = false \/ nextWriteField t !!! i <> "" ->
   snd (body_field t acc i) = false).
Proof.
  intros Hi Hlim Hc Hmax Hin. unfold within_limit, FIELDLENGTH_MAX in Hlim.
  destruct acc as [body first]. unfold in_step in *. cbn [fst snd] in *.
  destruct (string_dec (nextWriteField t !!! i) "") as [E | Hne].
  - rewrite contentLen_field_empty, body_field_empty by exact E.
    cbn [fst snd]. repeat split; try lia; try exact Hin.
    intros [H | H]; [exact H | contradiction].
  - pose proof (std_length_nonneg (nextWriteField t !!! i)).
    rewrite contentLen_field_staged by (try assumption; lia).
    destruct (body_field_staged t body first i Hi Hne) as [Hs Hl].
    rewrite Hs, Hl. repeat split; lia.
Qed.

(** The same for one of the four terms after the loop; [extra] is the
    length of ["&name="]. *)
Lemma term_in_step (extra : Z) (name value : string) (c : Z) (acc : string * bool) :
  Std.length name = extra - 1 -> 0 < extra <= 12 -> within_limit value ->
  0 <= c -> c + 267 <= Int.INT_MAX -> in_step c acc ->
  in_step (contentLen_term extra value c) (body_term name value acc) /\
  c <= contentLen_term extra value c <= c + 267 /\
  (snd acc = false \/ value <> "" -> snd (body_term name value acc) = false).
Proof.
  intros Hname Hex Hlim Hc Hmax Hin. unfold within_limit, FIELDLENGTH_MAX in Hlim.
  destruct acc as [body first]. unfold in_step in *. cbn [fst snd] in *.
  destruct (string_dec value "") as [E | Hne].
  - subst value. rewrite body_term_empty. cbn [fst snd].
    change (contentLen_term extra "" c) with c.
    repeat split; try lia; try exact Hin.
    intros [H | H]; [exact H | contradiction].
  - pose proof (std_length_nonneg value).
    rewrite contentLen_term_staged by (try assumption; lia).
    destruct (body_term_staged name value body first Hne) as [Hs Hl].
    rewrite Hs, Hl. repeat split; lia.
Qed.

(** ** The loop over the fields *)

Lemma fields_in_step (t : ThingSpeak) (l : list nat) :
  Forall (fun i : nat => (i < 8)%nat) l ->
  (forall i : nat, (i < 8)%nat -> within_limit (nextWriteField t !!! i)) ->
  forall (c : Z) (acc : string * bool),
    0 <= c -> c + 263 * Z.of_nat (List.length l) <= Int.INT_MAX -> in_step c acc ->
    in_step (foldl (contentLen_field t) c l) (foldl (body_field t) acc l) /\
    c <= foldl (contentLen_field t) c l <= c + 263 * Z.of_nat (List.length l) /\
    (snd acc = false \/ Exists (fun i : nat => nextWriteField t !!! i <> "") l ->
     snd (foldl (body_field t) acc l) = false).
Proof.
  intros Hl Hlim. induction Hl as [| i l Hi _ IH]; intros c acc Hc Hmax Hin.
  - cbn [foldl List.length]. repeat split; try lia; try exact Hin.
    intros [H | H]; [exact H | inversion H].
  - cbn [foldl]. cbn [List.length] in Hmax |- *.
    destruct (field_in_step t c acc i Hi (Hlim i Hi) Hc ltac:(lia) Hin)
      as (Hin1 & Hb1 & Hs1).
    destruct (IH (contentLen_field t c i) (body_field t acc i)
                ltac:(lia) ltac:(lia) Hin1) as (Hin2 & Hb2 & Hs2).
    repeat split; try lia; try exact Hin2.
    intros [H | H]; apply Hs2.
    + left. apply Hs1. now left.
    + inversion H; subst; [left; apply Hs1; now right | now right].
Qed.

Lemma content_length_staged (t : ThingSpeak) :
  bounded t -> staged t ->
  getWriteFieldsContentLength t = Std.length (encode t).
Proof.
  intros (Hf & Hs & Htw & Htt & Hc) Hstaged.
  unfold getWriteFieldsContentLength, encode.
  pose proof loop_indices as Hidx.
  assert (Hlen : List.length (seq 0 (Z.to_nat FIELDNUM_MAX)) = 8%nat) by reflexivity.
  destruct (fields_in_step t _ Hidx Hf 0 ("", true) ltac:(lia)
              ltac:(rewrite Hlen; unfold Int.INT_MAX; lia) eq_refl)
    as (H0 & B0 & S0).
  rewrite Hlen in B0.
  set (c0 := foldl (contentLen_field t) 0 (seq 0 (Z.to_nat FIELDNUM_MAX))) in *.
  set (a0 := foldl (body_field t) ("", true) (seq 0 (Z.to_nat FIELDNUM_MAX))) in *.
  destruct (term_in_step 8 "status=" (nextWriteStatus t) c0 a0 eq_refl
              ltac:(lia) Hs ltac:(lia) ltac:(unfold Int.INT_MAX; lia) H0)
    as (H1 & B1 & S1).
  set (c1 := contentLen_term 8 (nextWriteStatus t) c0) in *.
  set (a1 := body_term "status=" (nextWriteStatus t) a0) in *.
  destruct (term_in_step 9 "twitter=" (nextWriteTwitter t) c1 a1 eq_refl
              ltac:(lia) Htw ltac:(lia) ltac:(unfold Int.INT_MAX; lia) H1)
    as (H2 & B2 & S2).
  set (c2 := contentLen_term 9 (nextWriteTwitter t) c1) in *.
  set (a2 := body_term "twitter=" (nextWriteTwitter t) a1) in *.
  destruct (term_in_step 7 "tweet=" (nextWriteTweet t) c2 a2 eq_refl
              ltac:(lia) Htt ltac:(lia) ltac:(unfold Int.INT_MAX; lia) H2)
    as (H3 & B3 & S3).
  set (c3 := contentLen_term 7 (nextWriteTweet t) c2) in *.
  set (a3 := body_term "tweet=" (nextWriteTweet t) a2) in *.
  destruct (term_in_step 12 "created_at=" (nextWriteCreatedAt t) c3 a3 eq_refl
              ltac:(lia) Hc ltac:(lia) ltac:(unfold Int.INT_MAX; lia) H3)
    as (H4 & B4 & S4).
  set (c4 := contentLen_term 12 (nextWriteCreatedAt t) c3) in *.
  set (a4 := body_term "created_at=" (nextWriteCreatedAt t) a3) in *.
  assert (Hlast : snd a4 = false).
  { apply S4. destruct Hstaged as [(i & Hi & Hne) | [H | [H | [H | H]]]].
    - left. apply S3. left. apply S2. left. apply S1. left. apply S0. right.
      apply Exists_exists. exists i. split; [| exact Hne].
      apply elem_of_seq. change (Z.to_nat FIELDNUM_MAX) with 8%nat. lia.
    - left. apply S3. left. apply S2. left. apply S1. now right.
    - left. apply S3. left. apply S2. now right.
    - left. apply S3. now right.
    - now right. }
  unfold in_step in H4. rewrite Hlast in H4.
  pose proof (std_length_nonneg (fst a4)).
  destruct (Z.eqb_spec c4 0) as [E | _]; [lia |].
  rewrite int_add_small by (unfold Int.INT_MIN, Int.INT_MAX; lia).
  rewrite std_length_append. change (Std.length "&headers=false") with 14. lia.
Qed.

Lemma encode_length_pos (t : ThingSpeak) : 14 <= Std.length (encode t).
Proof.
  unfold encode. rewrite std_length_append.
  change (Std.length "&headers=false") with 14.
  match goal with |- 14 <= Std.length ?b + 14 => pose proof (std_length_nonneg b) end.
  lia.
Qed.

(** C1: whenever something is staged (a field, the status, the twitter
    handle, the tweet or the timestamp is non-empty) and every staged
    string has at most 255 bytes, [getWriteFieldsContentLength] is exactly
    the byte length of the body [writeFields] builds for that state, the
    closing ["&headers=false"] included; and that body is what
    [writeFields] hands to the transport. *)
Theorem content_length_is_body_length (t : ThingSpeak) :
  bounded t -> staged t ->
  getWriteFieldsContentLength t = Std.length (encode t) /\
  (forall (send : list Http.Request -> Http.Request -> Http.Response)
          (channelNumber : Z) (writeAPIKey : string) (w : World),
     this w = t ->
     wire (snd (writeFields send channelNumber writeAPIKey w)) =
     (wire w ++ [Http.with_body (update_request writeAPIKey) (encode t)])%list).
Proof.
  intros Hb Hs. pose proof (content_length_staged t Hb Hs) as E.
  split; [exact E |].
  intros send channelNumber writeAPIKey w <-.
  apply writeFields_request. rewrite E.
  pose proof (encode_length_pos (this w)). lia.
Qed.

(** ** The encoded body, term by term *)

Lemma append_nil_l (a : string) : "" +:+ a = a.
Proof. reflexivity. Qed.

Lemma body_field_as_term (t : ThingSpeak) (acc : string * bool) (i : nat) :
  body_field t acc i =
  body_term
    (("field" +:+ Std.to_string (Int.to_int (Int.to_size_t (Z.of_nat i + 1)))) +:+ "=")
    (nextWriteField t !!! i) acc.
Proof.
  destruct acc as [body first]. unfold body_field, body_term.
  destruct (Std.length _ >? 0); [| reflexivity].
  f_equal. now rewrite !append_assoc.
Qed.

Lemma is_staged_false (term : string * string) : is_staged term = false -> snd term = "".
Proof.
  unfold is_staged. intros H. apply negb_false_iff in H. now apply String.eqb_eq.
Qed.

Lemma is_staged_true (term : string * string) : is_staged term = true -> snd term <> "".
Proof.
  unfold is_staged. intros H. apply negb_true_iff in H. now apply String.eqb_neq.
Qed.

(** Running the blocks of [writeFields] over a list of terms writes the
    staged ones, in order, joined by ["&"], after what the body already
    holds. *)
Lemma terms_fold (l : list (string * string)) :
  forall (body : string) (first : bool),
    fst (foldl (fun acc term => body_term (fst term +:+ "=") (snd term) acc)
           (body, first) l) =
    body +:+
      (match first, List.filter is_staged l with
       | false, _ :: _ => "&"
       | _, _ => ""
       end +:+ String.concat "&" (map render (List.filter is_staged l))).
Proof.
  induction l as [| [k v] l IH]; intros body first.
  - cbn [foldl List.filter map String.concat fst].
    destruct first; now rewrite append_nil_l, append_nil_r.
  - cbn [foldl List.filter fst snd].
    destruct (is_staged (k, v)) eqn:Hk.
    + apply is_staged_true, std_length_pos_iff in Hk. cbn [snd] in Hk.
      unfold body_term at 2. rewrite Hk. rewrite IH.
      cbn [map String.concat]. unfold render at 2 4. cbn [fst snd].
      destruct (List.filter is_staged l) as [| x xs] eqn:Hl; cbn [map];
        destruct first; cbn [negb];
        rewrite ?append_nil_l, ?append_nil_r, ?append_assoc; reflexivity.
    + apply is_staged_false in Hk. cbn [snd] in Hk. subst v.
      rewrite body_term_empty. apply IH.
Qed.

Lemma encode_by_terms (t : ThingSpeak) :
  encode t =
  fst (foldl (fun acc term => body_term (fst term +:+ "=") (snd term) acc)
         ("", true) (terms t))
  +:+ "&headers=false".
Proof.
  unfold encode, terms. change (Z.to_nat FIELDNUM_MAX) with 8%nat.
  cbn [seq foldl]. rewrite !body_field_as_term. reflexivity.
Qed.

(** C4: for every state of the buffer the body [writeFields] builds is
    the list of staged terms in the order field1 .. field8, status,
    twitter, tweet, created_at (a term is listed only when its value is
    non-empty), each written as name, ["="], and the staged value byte for
    byte, with ["&"] between consecutive terms and none in front of the
    first, followed in every case by ["&headers=false"]. *)
Theorem encode_matches_spec (t : ThingSpeak) : encode t = encode_spec t.
Proof.
  rewrite encode_by_terms, terms_fold. unfold encode_spec.
  now rewrite !append_nil_l.
Qed.

(** * Searching a text *)

(** ** Occurrences *)

Lemma length_zero_empty (a : string) : String.length a = 0%nat -> a = "".
Proof. destruct a; [reflexivity | discriminate]. Qed.

Lemma prefix_true_iff (pat text : string) :
  String.prefix pat text = true <-> exists post : string, text = pat +:+ post.
Proof.
  revert text. induction pat as [| a pat IH]; intros text.
  - split; [intros _; now exists text | now destruct text].
  - destruct text as [| b text]; cbn [String.prefix].
    + split; [discriminate | intros [post H]; discriminate].
    + destruct (ascii_dec a b) as [-> | Hne].
      * rewrite IH. split; intros [post H]; exists post.
        -- rewrite append_cons. now f_equal.
        -- rewrite append_cons in H. now injection H.
      * split; [discriminate |]. intros [post H].
        rewrite append_cons in H. congruence.
Qed.

Lemma occurs_at_zero (pat text : string) :
  occurs_at pat text 0 <-> String.prefix pat text = true.
Proof.
  rewrite prefix_true_iff. unfold occurs_at. split.
  - intros (pre & post & H & Hlen). apply length_zero_empty in Hlen. subst pre.
    now exists post.
  - intros [post H]. now exists "", post.
Qed.

Lemma occurs_at_succ (pat text : string) (c : ascii) (p : nat) :
  occurs_at pat (String c text) (S p) <-> occurs_at pat text p.
Proof.
  unfold occurs_at. split.
  - intros (pre & post & H & Hlen). destruct pre as [| x pre]; [discriminate |].
    rewrite append_cons in H. injection H as _ H. injection Hlen as Hlen.
    now exists pre, post.
  - intros (pre & post & H & Hlen). exists (String c pre), post.
    rewrite append_cons. cbn [String.length]. split; [now f_equal | now f_equal].
Qed.

Lemma occurs_at_empty (pat : string) (p : nat) :
  occurs_at pat "" p -> pat = "" /\ p = 0%nat.
Proof.
  intros (pre & post & H & Hlen). destruct pre; [| discriminate].
  destruct pat; [| discriminate]. now split.
Qed.

Lemma occurs_at_bound (pat text : string) (p : nat) :
  occurs_at pat text p ->
  (p + String.length pat <= String.length text)%nat.
Proof.
  intros (pre & post & -> & <-). rewrite !length_append. lia.
Qed.

(** ** [String.index] finds the first occurrence at or after its start *)

Lemma index_found (text : string) :
  forall (n p : nat) (pat : string),
    occurs_at pat text p -> (n <= p)%nat ->
    (forall q : nat, (n <= q)%nat -> (q < p)%nat -> ~ occurs_at pat text q) ->
    String.index n pat text = Some p.
Proof.
  induction text as [| c text IH]; intros n p pat Hocc Hnp Hfirst.
  - apply occurs_at_empty in Hocc as [-> ->].
    assert (n = 0%nat) as -> by lia. reflexivity.
  - cbn [String.index]. destruct n as [| n].
    + destruct (String.prefix pat (String c text)) eqn:Hpre.
      * destruct p as [| p]; [reflexivity |].
        exfalso. apply (Hfirst 0%nat); [lia | lia |]. now apply occurs_at_zero.
      * destruct p as [| p].
        -- apply occurs_at_zero in Hocc. congruence.
        -- apply occurs_at_succ in Hocc.
           rewrite (IH 0%nat p pat Hocc); [reflexivity | lia |].
           intros q _ Hq Hq'. apply (Hfirst (S q)); [lia | lia |].
           now apply occurs_at_succ.
    + destruct p as [| p]; [lia |].
      apply occurs_at_succ in Hocc.
      rewrite (IH n p pat Hocc); [reflexivity | lia |].
      intros q Hnq Hq Hq'. apply (Hfirst (S q)); [lia | lia |].
      now apply occurs_at_succ.
Qed.

Lemma index_missing (text : string) :
  forall (n : nat) (pat : string),
    pat <> "" ->
    (forall q : nat, (n <= q)%nat -> ~ occurs_at pat text q) ->
    String.index n pat text = None.
Proof.
  induction text as [| c text IH]; intros n pat Hpat Hnone.
  - destruct n; [| reflexivity]. destruct pat; [contradiction | reflexivity].
  - cbn [String.index]. destruct n as [| n].
    + destruct (String.prefix pat (String c text)) eqn:Hpre.
      * exfalso. apply (Hnone 0%nat); [lia |]. now apply occurs_at_zero.
      * rewrite (IH 0%nat pat Hpat); [reflexivity |].
        intros q _ Hq. apply (Hnone (S q)); [lia |]. now apply occurs_at_succ.
    + rewrite (IH n pat Hpat); [reflexivity |].
      intros q Hnq Hq. apply (Hnone (S q)); [lia |]. now apply occurs_at_succ.
Qed.

(** ** Taking a text apart *)

Lemma append_split (x : string) :
  forall y a b : string,
    x +:+ y = a +:+ b -> (String.length x <= String.length a)%nat ->
    exists m : string, a = x +:+ m /\ y = m +:+ b.
Proof.
  induction x as [| c x IH]; intros y a b H Hlen.
  - exists a. now split.
  - destruct a as [| d a]; [cbn in Hlen; lia |].
    rewrite !append_cons in H. injection H as -> H.
    cbn [String.length] in Hlen.
    destruct (IH y a b H ltac:(lia)) as (m & -> & ->).
    exists m. now split.
Qed.

Lemma substring_prefix (a b : string) :
  String.substring 0 (String.length a) (a +:+ b) = a.
Proof.
  induction a as [| c a IH]; cbn [String.length].
  - now destruct b.
  - rewrite append_cons. cbn [String.substring]. now f_equal.
Qed.

Lemma substring_suffix (a b : string) :
  String.substring (String.length a) (String.length b) (a +:+ b) = b.
Proof.
  induction a as [| c a IH]; cbn [String.length].
  - rewrite append_nil_l. pose proof (substring_prefix b "") as H.
    now rewrite append_nil_r in H.
  - rewrite append_cons. cbn [String.substring]. exact IH.
Qed.

(** ** [find] on the 32-bit target *)

Lemma find_found (text pat : string) (n p : nat) :
  occurs_at pat text p -> (n <= p)%nat ->
  (forall q : nat, (n <= q)%nat -> (q < p)%nat -> ~ occurs_at pat text q) ->
  Std.find text pat (Z.of_nat n) = Z.of_nat p.
Proof.
  intros Hocc Hnp Hfirst. unfold Std.find. rewrite Nat2Z.id.
  now rewrite (index_found text n p pat Hocc Hnp Hfirst).
Qed.

Lemma find_missing (text pat : string) (n : nat) :
  pat <> "" ->
  (forall q : nat, (n <= q)%nat -> ~ occurs_at pat text q) ->
  Std.find text pat (Z.of_nat n) = Std.npos.
Proof.
  intros Hpat Hnone. unfold Std.find. rewrite Nat2Z.id.
  now rewrite (index_missing text n pat Hpat Hnone).
Qed.

(** A position inside a text that fits an [int] survives the round trip
    through the [int] variable, and is not [npos]. *)
Lemma position_in_int (n : nat) :
  Z.of_nat n <= Int.INT_MAX ->
  Int.to_int (Z.of_nat n) = Z.of_nat n /\
  Int.to_size_t (Z.of_nat n) = Z.of_nat n /\
  (Z.of_nat n =? Std.npos) = false.
Proof.
  intros H. unfold Int.INT_MAX in H. split; [| split].
  - apply to_int_small. unfold Int.INT_MIN, Int.INT_MAX. lia.
  - apply to_size_t_small. unfold Int.SIZE_MAX. lia.
  - apply Z.eqb_neq. unfold Std.npos, Int.SIZE_MAX. lia.
Qed.

Lemma npos_in_int : Int.to_size_t (Int.to_int Std.npos) = Std.npos.
Proof. reflexivity. Qed.

Lemma key_phrase_length (key : string) :
  String.length (key_phrase key) = (String.length key + 4)%nat.
Proof.
  unfold key_phrase. rewrite !length_append.
  change (String.length dquote) with 1%nat. change (String.length ":") with 1%nat. lia.
Qed.

Lemma key_phrase_nonempty (key : string) : key_phrase key <> "".
Proof.
  intros H. apply (f_equal String.length) in H.
  rewrite key_phrase_length in H. cbn in H. lia.
Qed.

(** A double quote found in [head +:+ v] at or after the end of [head]
    is a double quote of [v]. *)
Lemma quote_in_tail (head v rest : string) (q : nat) :
  occurs_at dquote (head +:+ v +:+ rest) q ->
  (String.length head <= q)%nat -> (q < String.length head + String.length v)%nat ->
  occurs_at dquote v (q - String.length head).
Proof.
  intros (a & b & H & Hq) Hlo Hhi.
  destruct (append_split head _ a _ H ltac:(lia)) as (m & -> & Hv).
  rewrite length_append in Hq.
  assert (Hm : (String.length (m +:+ dquote) <= String.length v)%nat).
  { rewrite length_append. change (String.length dquote) with 1%nat. lia. }
  rewrite <- append_assoc in Hv. symmetry in Hv.
  destruct (append_split (m +:+ dquote) _ v _ Hv Hm) as (n & -> & _).
  exists m, n. rewrite append_assoc. split; [reflexivity | lia].
Qed.

(** ** The key-value extractor *)

(** Once the phrase is known to occur first at the end of [pre], the
    function comes down to the search for the closing quote. *)
Lemma getJSONValueByKey_after_phrase (pre tail key : string) :
  let text := pre +:+ key_phrase key +:+ tail in
  let from := (String.length pre + String.length (key_phrase key))%nat in
  Std.length text <= Int.INT_MAX ->
  (forall q : nat, occurs_at (key_phrase key) text q -> (String.length pre <= q)%nat) ->
  getJSONValueByKey text key =
    let toPosition := Int.to_int (Std.find text dquote (Z.of_nat from)) in
    if Int.to_size_t toPosition =? Std.npos then Std.Ret ""
    else
      match Std.erase text (Int.to_size_t toPosition) with
      | Std.Ret erased => Std.substr erased (Z.of_nat from)
      | Std.Throw e => Std.Throw e
      end.
Proof.
  intros text from Hmax Hfirst.
  assert (Hocc : occurs_at (key_phrase key) text (String.length pre)).
  { now exists pre, tail. }
  pose proof (occurs_at_bound _ _ _ Hocc) as Hb.
  pose proof (key_phrase_length key) as Hk.
  assert (Hlen : Std.length text = Z.of_nat (String.length text)) by reflexivity.
  assert (Hfrom : from = (String.length pre + String.length (key_phrase key))%nat)
    by reflexivity.
  clearbody text from.
  unfold getJSONValueByKey. fold (key_phrase key).
  destruct (Z.eqb_spec (Std.length text) 0) as [E | _]; [lia |].
  change (Std.find text (key_phrase key) 0)
    with (Std.find text (key_phrase key) (Z.of_nat 0)).
  rewrite (find_found text (key_phrase key) 0 (String.length pre) Hocc (Nat.le_0_l _)).
  2:{ intros q _ Hq Hq'. apply Hfirst in Hq'. lia. }
  destruct (position_in_int (String.length pre) ltac:(lia)) as (E1 & E2 & E3).
  rewrite E1, E2, E3.
  rewrite mixed_add_small by (unfold Std.length; lia).
  assert (Hsum : Z.of_nat (String.length pre) + Std.length (key_phrase key)
                 = Z.of_nat from) by (unfold Std.length; lia).
  rewrite Hsum.
  destruct (position_in_int from ltac:(lia)) as (_ & E5 & _).
  rewrite E5. reflexivity.
Qed.

Lemma getJSONValueByKey_cases (t k : string) :
  Std.length t <= Int.INT_MAX ->
  (t = "" -> getJSONValueByKey t k = Std.Ret "") /\
  ((forall p : nat, ~ occurs_at (key_phrase k) t p) ->
   getJSONValueByKey t k = Std.Ret "") /\
  (forall pre v rest : string,
     t = pre +:+ key_phrase k +:+ v +:+ dquote +:+ rest ->
     (forall q : nat, occurs_at (key_phrase k) t q -> (String.length pre <= q)%nat) ->
     (forall q : nat, ~ occurs_at dquote v q) ->
     getJSONValueByKey t k = Std.Ret v) /\
  (forall pre v : string,
     t = pre +:+ key_phrase k +:+ v ->
     (forall q : nat, occurs_at (key_phrase k) t q -> (String.length pre <= q)%nat) ->
     (forall q : nat, ~ occurs_at dquote v q) ->
     getJSONValueByKey t k = Std.Ret "").
Proof.
  intros Hmax. split; [| split; [| split]].
  - intros ->. reflexivity.
  - intros Hnone. unfold getJSONValueByKey. fold (key_phrase k).
    destruct (Std.length t =? 0); [reflexivity |].
    change (Std.find t (key_phrase k) 0) with (Std.find t (key_phrase k) (Z.of_nat 0)).
    rewrite find_missing; [| apply key_phrase_nonempty | intros q _; apply Hnone].
    now rewrite npos_in_int.
  - intros pre v rest -> Hfirst Hquote.
    rewrite getJSONValueByKey_after_phrase by assumption. cbn zeta.
    set (ph := key_phrase k) in *.
    set (from := (String.length pre + String.length ph)%nat).
    set (text := pre +:+ ph +:+ v +:+ dquote +:+ rest) in *.
    assert (Htext : text = (pre +:+ ph) +:+ v +:+ dquote +:+ rest).
    { unfold text. now rewrite !append_assoc. }
    assert (Hhead : text = ((pre +:+ ph) +:+ v) +:+ dquote +:+ rest).
    { unfold text. now rewrite !append_assoc. }
    assert (Hfrom : String.length (pre +:+ ph) = from).
    { apply length_append. }
    assert (Hto : String.length ((pre +:+ ph) +:+ v) = (from + String.length v)%nat).
    { now rewrite length_append, Hfrom. }
    assert (Hocc : occurs_at dquote text (from + String.length v)).
    { exists ((pre +:+ ph) +:+ v), rest. now split. }
    pose proof (occurs_at_bound _ _ _ Hocc) as Hb.
    change (String.length dquote) with 1%nat in Hb.
    assert (Hlen : Std.length text = Z.of_nat (String.length text)) by reflexivity.
    rewrite (find_found text dquote from (from + String.length v) Hocc
               (Nat.le_add_r _ _)).
    2:{ intros q Hlo Hhi Hq. apply (Hquote (q - from)%nat).
        rewrite <- Hfrom. rewrite Htext in Hq.
        apply (quote_in_tail _ _ (dquote +:+ rest)); [exact Hq | lia | lia]. }
    destruct (position_in_int (from + String.length v) ltac:(lia)) as (E1 & E2 & E3).
    rewrite E1, E2, E3. unfold Std.erase.
    destruct (Z.ltb_spec (Std.length text) (Z.of_nat (from + String.length v)));
      [lia |].
    rewrite Nat2Z.id. rewrite Hhead at 1. rewrite <- Hto, substring_prefix.
    unfold Std.substr, Std.length. rewrite Hto.
    destruct (Z.ltb_spec (Z.of_nat (from + String.length v)) (Z.of_nat from));
      [lia |].
    rewrite Nat2Z.id.
    replace (from + String.length v - from)%nat with (String.length v) by lia.
    rewrite <- Hfrom. now rewrite substring_suffix.
  - intros pre v -> Hfirst Hquote.
    rewrite getJSONValueByKey_after_phrase by assumption. cbn zeta.
    set (ph := key_phrase k) in *.
    set (from := (String.length pre + String.length ph)%nat).
    rewrite find_missing; [now rewrite npos_in_int | discriminate |].
    intros q Hlo Hq.
    assert (Hfrom : String.length (pre +:+ ph) = from) by apply length_append.
    pose proof (occurs_at_bound _ _ _ Hq) as Hb.
    rewrite !length_append in Hb. change (String.length dquote) with 1%nat in Hb.
    apply (Hquote (q - from)%nat). rewrite <- Hfrom.
    apply (quote_in_tail _ _ "").
    + now rewrite append_nil_r, append_assoc.
    + lia.
    + rewrite length_append. fold from. lia.
Qed.

(** C8: [getJSONValueByKey(t, k)], for a text that fits the 32-bit
    target, returns the text strictly between the first occurrence of the
    phrase made of [k] in double quotes, a colon and a double quote, and the
    next double quote after it.  It returns the empty string when [t] is
    empty, when the phrase does not occur in [t], and when no double quote
    follows the phrase. *)
Theorem getJSONValueByKey_spec (t k : string) :
  Std.length t <= Int.INT_MAX ->
  (t = "" -> getJSONValueByKey t k = Std.Ret "") /\
  ((forall p : nat, ~ occurs_at (key_phrase k) t p) ->
   getJSONValueByKey t k = Std.Ret "") /\
  (forall pre v rest : string,
     t = pre +:+ key_phrase k +:+ v +:+ dquote +:+ rest ->
     (forall q : nat, occurs_at (key_phrase k) t q -> (String.length pre <= q)%nat) ->
     (forall q : nat, ~ occurs_at dquote v q) ->
     getJSONValueByKey t k = Std.Ret v) /\
  (forall pre v : string,
     t = pre +:+ key_phrase k +:+ v ->
     (forall q : nat, occurs_at (key_phrase k) t q -> (String.length pre <= q)%nat) ->
     (forall q : nat, ~ occurs_at dquote v q) ->
     getJSONValueByKey t k = Std.Ret "").
Proof. exact (getJSONValueByKey_cases t k). Qed.

(** ** The cases of the extractor are exhaustive *)

Lemma index_some (text : string) :
  forall (n m : nat) (pat : string),
    String.index n pat text = Some m ->
    occurs_at pat text m /\ (n <= m)%nat /\
    (forall q : nat, (n <= q)%nat -> (q < m)%nat -> ~ occurs_at pat text q).
Proof.
  induction text as [| c text IH]; intros n m pat H.
  - destruct n; [| discriminate]. destruct pat; [| discriminate].
    injection H as <-. split; [now apply occurs_at_zero |]. split; [lia |].
    intros q _ Hq. lia.
  - cbn [String.index] in H. destruct n as [| n].
    + destruct (String.prefix pat (String c text)) eqn:Hpre.
      * injection H as <-. split; [now apply occurs_at_zero |]. split; [lia |].
        intros q _ Hq. lia.
      * destruct (String.index 0 pat text) as [m' |] eqn:Hi; [| discriminate].
        injection H as <-. destruct (IH 0%nat m' pat Hi) as (Ho & _ & Hf).
        split; [now apply occurs_at_succ |]. split; [lia |].
        intros q _ Hq Hocc. destruct q as [| q].
        -- apply occurs_at_zero in Hocc. congruence.
        -- apply occurs_at_succ in Hocc. apply (Hf q); [lia | lia | exact Hocc].
    + destruct (String.index n pat text) as [m' |] eqn:Hi; [| discriminate].
      injection H as <-. destruct (IH n m' pat Hi) as (Ho & Hn & Hf).
      split; [now apply occurs_at_succ |]. split; [lia |].
      intros q Hlo Hq Hocc. destruct q as [| q]; [lia |].
      apply occurs_at_succ in Hocc. apply (Hf q); [lia | lia | exact Hocc].
Qed.

Lemma index_none (text : string) :
  forall (n : nat) (pat : string),
    String.index n pat text = None ->
    forall q : nat, (n <= q)%nat -> ~ occurs_at pat text q.
Proof.
  induction text as [| c text IH]; intros n pat H q Hq Hocc.
  - apply occurs_at_empty in Hocc as [-> ->].
    assert (n = 0%nat) as -> by lia. discriminate H.
  - cbn [String.index] in H. destruct n as [| n].
    + destruct (String.prefix pat (String c text)) eqn:Hpre; [discriminate |].
      destruct (String.index 0 pat text) eqn:Hi; [discriminate |].
      destruct q as [| q].
      * apply occurs_at_zero in Hocc. congruence.
      * apply occurs_at_succ in Hocc. apply (IH 0%nat pat Hi q); [lia | exact Hocc].
    + destruct (String.index n pat text) eqn:Hi; [discriminate |].
      destruct q as [| q]; [lia |].
      apply occurs_at_succ in Hocc. apply (IH n pat Hi q); [lia | exact Hocc].
Qed.

(** Every text either lacks the pattern or splits at its first
    occurrence. *)
Lemma first_occurrence (pat text : string) :
  (forall p : nat, ~ occurs_at pat text p) \/
  (exists pre tail : string,
     text = pre +:+ pat +:+ tail /\
     forall q : nat, occurs_at pat text q -> (String.length pre <= q)%nat).
Proof.
  destruct (String.index 0 pat text) as [m |] eqn:Hi.
  - right. destruct (index_some text 0 m pat Hi) as ((pre & tail & -> & <-) & _ & Hf).
    exists pre, tail. split; [reflexivity |].
    intros q Hq. destruct (Nat.le_gt_cases (String.length pre) q) as [| Hlt];
      [assumption |].
    exfalso. apply (Hf q); [lia | exact Hlt | exact Hq].
  - left. intros p. apply (index_none text 0 pat Hi). lia.
Qed.

(** On the 32-bit target the extractor always returns: it never throws. *)
Lemma getJSONValueByKey_returns (t k : string) :
  Std.length t <= Int.INT_MAX ->
  exists v : string, getJSONValueByKey t k = Std.Ret v.
Proof.
  intros Hmax.
  destruct (getJSONValueByKey_cases t k Hmax) as (_ & Hnone & Hval & Hopen).
  destruct (first_occurrence (key_phrase k) t) as [H | (pre & tail & Ht & Hfirst)].
  - exists "". now apply Hnone.
  - destruct (first_occurrence dquote tail) as [H | (v & rest & Htail & Hq)].
    + exists "". now apply (Hopen pre tail).
    + exists v. apply (Hval pre v rest).
      * now rewrite Ht, Htail.
      * exact Hfirst.
      * intros q (a & b & Hv & Hlen).
        assert (Hocc : occurs_at dquote tail q).
        { exists a, (b +:+ dquote +:+ rest). split; [| exact Hlen].
          rewrite Htail, Hv. now rewrite !append_assoc. }
        apply Hq in Hocc. apply (f_equal String.length) in Hv.
        rewrite !length_append in Hv. change (String.length dquote) with 1%nat in Hv.
        lia.
Qed.

(** * The model at work *)

Example stoi_entry : Std.stoi "12345" = Std.Ret 12345.
Proof. reflexivity. Qed.

Example stoi_zero : Std.stoi "0" = Std.Ret 0.
Proof. reflexivity. Qed.

Example stoi_empty : Std.stoi "" = Std.Throw Std.invalid_argument.
Proof. reflexivity. Qed.

Example stoi_leading_text : Std.stoi " -42abc" = Std.Ret (-42).
Proof. reflexivity. Qed.

Example stoi_too_large : Std.stoi "2147483648" = Std.Throw Std.out_of_range.
Proof. reflexivity. Qed.

Example encode_two_fields :
  encode (this two_fields) = "field1=10&field2=abc&headers=false" /\
  getWriteFieldsContentLength (this two_fields) = 34.
Proof. split; reflexivity. Qed.

(** Values go into the body as they are: no percent-encoding. *)
Example encode_verbatim :
  encode (set_nextWriteStatus "a&b=c d" ThingSpeak_new) = "status=a&b=c d&headers=false".
Proof. reflexivity. Qed.

Example setField_bounds :
  fst (setField 0 "1" fresh) = Std.Ret (-201) /\
  fst (setField 9 "1" fresh) = Std.Ret (-201) /\
  fst (setField 1 "1" fresh) = Std.Ret 200 /\
  fst (setField 8 "1" fresh) = Std.Ret 200.
Proof. repeat split; reflexivity. Qed.

Example extract_status :
  getJSONValueByKey feed_text "status" = Std.Ret "ok" /\
  getJSONValueByKey feed_text "x" = Std.Ret "y" /\
  getJSONValueByKey feed_text "missing" = Std.Ret "" /\
  getJSONValueByKey (key_phrase "status" +:+ "ok") "status" = Std.Ret "".
Proof. repeat split; reflexivity. Qed.

Example write_not_inserted :
  fst (writeFields (reply 200 "0") 1 "KEY" two_fields) = Std.Ret (-401) /\
  fst (writeFields (reply 200 "12345") 1 "KEY" two_fields) = Std.Ret 200 /\
  fst (writeFields (reply 404 "") 1 "KEY" two_fields) = Std.Ret 404.
Proof. repeat split; reflexivity. Qed.

(** ** Where the code parts from its documentation *)

(** C2: every write is to leave the buffer empty on every exit path.
    [writeRaw] does not: with two fields staged and a transport
    that answers 404, it makes its request, returns 404, and the object is
    exactly as before, so the content length is still 34 and not 0.
    ([writeFields] does empty the buffer on every path, see
    [writeFields_clears].) *)
Theorem writeRaw_keeps_buffer_after_404 :
  let out := writeRaw (reply 404 "") 1 "field3=4" "KEY" two_fields in
  fst out = Std.Ret 404 /\
  List.length (wire (snd out)) = 1%nat /\
  this (snd out) = this two_fields /\
  nextWriteField (this (snd out)) !!! 0%nat = "10" /\
  getWriteFieldsContentLength (this (snd out)) = 34.
Proof. cbn zeta. repeat split; reflexivity. Qed.

(** C9: every read is to return, never to throw, when the status is not
    200.  [readLongField] (and [readIntField], which calls
    it) passes the empty string it gets from [readStringField] to [stoi],
    which throws [invalid_argument]; the status 404 is stored all the
    same. *)
Theorem readLongField_throws_after_404 :
  let out := readLongField (reply 404 "") 1 1 None fresh in
  fst out = Std.Throw Std.invalid_argument /\
  fst (readIntField (reply 404 "") 1 1 None fresh) = Std.Throw Std.invalid_argument /\
  fst (readStringField (reply 404 "") 1 1 None fresh) = Std.Ret "" /\
  lastReadStatus (this (snd out)) = 404.
Proof. cbn zeta. repeat split; reflexivity. Qed.

(** C7, as first stated, fails: [writeRaw] does not always leave the
    staged values as they were.  With two fields staged and a transport
    that answers 200 with entry ID 17, the fields are empty afterwards. *)
Lemma writeRaw_frame_counterexample :
  ~ (forall (send : list Http.Request -> Http.Request -> Http.Response)
            (channelNumber : Z) (postMessage writeAPIKey : string) (w : World),
       let w' := snd (writeRaw send channelNumber postMessage writeAPIKey w) in
       nextWriteField (this w') = nextWriteField (this w) /\
       nextWriteStatus (this w') = nextWriteStatus (this w) /\
       nextWriteTwitter (this w') = nextWriteTwitter (this w) /\
       nextWriteTweet (this w') = nextWriteTweet (this w) /\
       nextWriteCreatedAt (this w') = nextWriteCreatedAt (this w)).
Proof.
  intros H.
  destruct (H (reply 200 "17") 1 "field3=4" "KEY" two_fields) as [Hfields _].
  vm_compute in Hfields. discriminate Hfields.
Qed.

(** ** The theorems at concrete inputs *)

Lemma two_fields_bounded : bounded (this two_fields).
Proof.
  unfold bounded, within_limit.
  split; [| repeat split; vm_compute; discriminate].
  intros i Hi.
  do 8 (destruct i as [|i]; [vm_compute; discriminate |]). lia.
Defined.

Lemma two_fields_staged : staged (this two_fields).
Proof. left. exists 0%nat. split; [lia | discriminate]. Defined.

Lemma content_length_is_body_length_witness :
  bounded (this two_fields) /\ staged (this two_fields) /\
  getWriteFieldsContentLength (this two_fields) = Std.length (encode (this two_fields)).
Proof.
  split; [exact two_fields_bounded |]. split; [exact two_fields_staged |].
  apply (proj1 (content_length_is_body_length (this two_fields)
                  two_fields_bounded two_fields_staged)).
Defined.

Lemma setField_spec_witness :
  wf (this fresh) /\ 1 <= 1 <= 8 /\ Std.length "10" <= 255 /\
  fst (setField 1 "10" fresh) = Std.Ret 200 /\
  nextWriteField (this (snd (setField 1 "10" fresh))) !!! Z.to_nat (1 - 1) = "10".
Proof.
  assert (Hwf : wf (this fresh)) by reflexivity.
  assert (Hf : 1 <= 1 <= 8) by lia.
  assert (Hv : Std.length "10" <= 255) by (vm_compute; discriminate).
  destruct (setField_spec 1 "10" fresh Hwf) as (_ & _ & _ & H).
  destruct (H Hf Hv) as (Hret & Hslot & _).
  repeat split; try assumption; lia.
Defined.

Lemma writeFields_nothing_staged_witness :
  nothing_staged (this fresh) /\
  getWriteFieldsContentLength (this fresh) = 0 /\
  fst (writeFields (reply 200 "1") 1 "KEY" fresh) = Std.Ret (-210) /\
  wire (snd (writeFields (reply 200 "1") 1 "KEY" fresh)) = [].
Proof.
  assert (H : nothing_staged (this fresh)).
  { split; [| repeat split].
    intros i Hi. do 8 (destruct i as [|i]; [reflexivity |]). lia. }
  destruct (writeFields_nothing_staged (reply 200 "1") 1 "KEY" fresh H) as [H0 H1].
  split; [exact H |]. split; [exact H0 |]. rewrite H1. split; reflexivity.
Defined.

Lemma write_result_rule_witness :
  getWriteFieldsContentLength (this two_fields) <> 0 /\
  Http.get_status_code (reply 200 "0" [] (Http.mkRequest Http.HTTP_POST "" [] "")) = 200 /\
  fst (writeFields (reply 200 "0") 1 "KEY" two_fields) = Std.Ret (-401) /\
  fst (writeRaw (reply 404 "") 1 "field1=5" "KEY" fresh) = Std.Ret 404 /\
  fst (writeField (reply 200 "7") 1 2 "5" "KEY" fresh) = Std.Ret 200.
Proof.
  assert (Hlen : getWriteFieldsContentLength (this two_fields) <> 0)
    by (vm_compute; discriminate).
  split; [exact Hlen |]. split; [reflexivity |]. split; [| split].
  - destruct (write_result_rule (reply 200 "0") 1 "KEY" two_fields) as (H & _ & _).
    destruct (H Hlen) as (_ & Hzero & _). apply Hzero; reflexivity.
  - destruct (write_result_rule (reply 404 "") 1 "KEY" fresh) as (_ & H & _).
    destruct (H "field1=5") as (Hfail & _ & _). apply Hfail. discriminate.
  - destruct (write_result_rule (reply 200 "7") 1 "KEY" fresh) as (_ & _ & H).
    assert (Hv : Std.length "5" <= 255) by (vm_compute; discriminate).
    destruct (H 2 "5" ltac:(lia) Hv) as (_ & _ & Hok).
    apply (Hok eq_refl 7); [reflexivity | discriminate].
Defined.

Lemma writeRaw_effect_witness :
  Http.get_status_code (reply 200 "17" [] (Http.mkRequest Http.HTTP_POST "" [] "")) = 200 /\
  Std.stoi "17" = Std.Ret 17 /\
  nothing_staged (this (snd (writeRaw (reply 200 "17") 1 "field3=4" "KEY" two_fields))) /\
  getWriteFieldsContentLength
    (this (snd (writeRaw (reply 200 "17") 1 "field3=4" "KEY" two_fields))) = 0.
Proof.
  split; [reflexivity |]. split; [reflexivity |].
  destruct (writeRaw_effect (reply 200 "17") 1 "field3=4" "KEY" two_fields)
    as (_ & _ & _ & H).
  destruct (H eq_refl 17 eq_refl) as (Hs & Hc & _). split; assumption.
Defined.

Lemma readStringField_invalid_field_witness :
  (0 < 1 \/ 0 > 8) /\
  fst (readStringField (reply 200 "5") 1 0 None fresh) = Std.Ret "" /\
  wire (snd (readStringField (reply 200 "5") 1 0 None fresh)) = [] /\
  fst (getLastReadStatus (snd (readStringField (reply 200 "5") 1 0 None fresh)))
    = Std.Ret (-201).
Proof.
  assert (H : 0 < 1 \/ 0 > 8) by (left; lia).
  destruct (readStringField_invalid_field (reply 200 "5") 1 0 None fresh H)
    as (Hret & _ & Hwire & _ & Hstatus).
  repeat split; assumption.
Defined.

Lemma no_quote_in_ok (q : nat) : ~ occurs_at dquote "ok" q.
Proof.
  intros H. pose proof (occurs_at_bound _ _ _ H) as Hb. cbn in Hb.
  destruct q as [| [| q]]; [| | lia].
  - apply occurs_at_zero in H. discriminate H.
  - apply occurs_at_succ, occurs_at_zero in H. discriminate H.
Defined.

Lemma getJSONValueByKey_spec_witness :
  Std.length feed_text <= Int.INT_MAX /\
  getJSONValueByKey feed_text "status" = Std.Ret "ok".
Proof.
  assert (Hmax : Std.length feed_text <= Int.INT_MAX) by (vm_compute; discriminate).
  split; [exact Hmax |].
  destruct (getJSONValueByKey_spec feed_text "status" Hmax) as (_ & _ & H & _).
  apply (H "{" "ok" ("," +:+ key_phrase "x" +:+ "y" +:+ dquote +:+ "}")).
  - reflexivity.
  - intros q Hq. destruct q as [| q]; [| cbn; lia].
    apply occurs_at_zero in Hq. discriminate Hq.
  - exact no_quote_in_ok.
Defined.

(** * Further properties of the interface *)

(** ** Shared facts *)

Lemma c_str_length_le (s : string) : Std.length (Std.c_str s) <= Std.length s.
Proof.
  unfold Std.length. induction s as [| c s IH]; [reflexivity |].
  cbn [Std.c_str]. destruct (Ascii.eqb c zero); cbn [String.length]; lia.
Qed.

Lemma c_str_no_nul (s : string) : no_nul s -> Std.c_str s = s.
Proof.
  induction s as [| c s IH]; [reflexivity |]. intros [Hc Hs].
  cbn [Std.c_str]. destruct (Ascii.eqb_spec c zero); [contradiction |].
  now rewrite IH.
Qed.

Lemma no_nul_append (a b : string) : no_nul a -> no_nul b -> no_nul (a +:+ b).
Proof.
  induction a as [| c a IH]; intros Ha Hb; [exact Hb |].
  rewrite append_cons. destruct Ha as [Hc Ha]. split; [exact Hc | now apply IH].
Qed.

Lemma nothing_staged_or_staged (t : ThingSpeak) : nothing_staged t \/ staged t.
Proof.
  assert (Hf : forall n : nat,
             (forall i : nat, (i < n)%nat -> nextWriteField t !!! i = "") \/
             (exists i : nat, (i < n)%nat /\ nextWriteField t !!! i <> "")).
  { induction n as [| n [IH | (i & Hi & Hne)]].
    - left. intros i Hi. lia.
    - destruct (string_dec (nextWriteField t !!! n) "") as [E | Hne].
      + left. intros i Hi. destruct (Nat.eq_dec i n) as [-> | Hin]; [exact E |].
        apply IH. lia.
      + right. exists n. split; [lia | exact Hne].
    - right. exists i. split; [lia | exact Hne]. }
  unfold nothing_staged, staged.
  destruct (Hf 8%nat) as [H8 | H8]; [| now right; left].
  destruct (string_dec (nextWriteStatus t) "") as [E1 | N1]; [| now right; right; left].
  destruct (string_dec (nextWriteTwitter t) "") as [E2 | N2];
    [| now right; right; right; left].
  destruct (string_dec (nextWriteTweet t) "") as [E3 | N3];
    [| now right; right; right; right; left].
  destruct (string_dec (nextWriteCreatedAt t) "") as [E4 | N4];
    [| now right; right; right; right; right].
  left. repeat split; assumption.
Qed.

Lemma staged_not_nothing (t : ThingSpeak) : staged t -> ~ nothing_staged t.
Proof.
  intros Hs (Hf & E1 & E2 & E3 & E4).
  destruct Hs as [(i & Hi & Hne) | [H | [H | [H | H]]]]; try contradiction.
  apply Hne. now apply Hf.
Qed.

Lemma content_length_zero_iff (t : ThingSpeak) :
  bounded t -> (getWriteFieldsContentLength t = 0 <-> nothing_staged t).
Proof.
  intros Hb. split.
  - intros H0. destruct (nothing_staged_or_staged t) as [H | H]; [exact H |].
    pose proof (content_length_staged t Hb H) as E.
    pose proof (encode_length_pos t). lia.
  - apply contentLength_nothing_staged.
Qed.

Section Coverage.

Variable send : list Http.Request -> Http.Request -> Http.Response.

Lemma writeFields_unstaged_run (channelNumber : Z) (writeAPIKey : string) (w : World) :
  getWriteFieldsContentLength (this w) = 0 ->
  writeFields send channelNumber writeAPIKey w =
    (Std.Ret (-210),
     mkWorld (this w) (wire w) (console w ++ ["ERR_SETFIELD_NOT_CALLED" +:+ nl])).
Proof. intros H. unfold writeFields. run_member. now rewrite H. Qed.

(** ** Writes *)

(** X1: once something is staged, [writeFields] leaves the buffer empty
    whatever the transport answers, also when the call throws; and a
    second [writeFields] right after it returns -210 without a request: a
    pending update is sent at most once. *)
Theorem writeFields_sends_once (channelNumber channelNumber' : Z)
    (writeAPIKey writeAPIKey' : string) (w : World) :
  getWriteFieldsContentLength (this w) <> 0 ->
  let w1 := snd (writeFields send channelNumber writeAPIKey w) in
  let again := writeFields send channelNumber' writeAPIKey' w1 in
  nothing_staged (this w1) /\
  getWriteFieldsContentLength (this w1) = 0 /\
  List.length (wire w1) = S (List.length (wire w)) /\
  fst again = Std.Ret (-210) /\
  wire (snd again) = wire w1 /\
  this (snd again) = this w1.
Proof.
  intros Hlen. cbn zeta.
  destruct (writeFields_clears send channelNumber writeAPIKey w Hlen) as [Hn H0].
  split; [exact Hn |]. split; [exact H0 |]. split.
  - rewrite writeFields_request by exact Hlen. rewrite length_app. cbn. lia.
  - rewrite (writeFields_unstaged_run _ _ _ H0). repeat split.
Qed.

(** X2: [writeRaw] leaves the object exactly as it was, staged values
    included, when the transport yields a status other than 200, and also
    when it yields 200 with a body [stoi] cannot parse; in that last case
    the call throws what [stoi] throws. *)
Theorem writeRaw_keeps_object (channelNumber : Z) (postMessage writeAPIKey : string)
    (w : World) :
  let response :=
    send (wire w)
      (Http.with_body (update_request writeAPIKey) (postMessage +:+ "&headers=false")) in
  let out := writeRaw send channelNumber postMessage writeAPIKey w in
  (Http.get_status_code response <> 200 -> this (snd out) = this w) /\
  (Http.get_status_code response = 200 ->
   forall e : Std.exception,
     Std.stoi (Http.get_body_as_string response) = Std.Throw e ->
     fst out = Std.Throw e /\ this (snd out) = this w).
Proof.
  cbn zeta. split.
  - apply writeRaw_failure_keeps.
  - intros Hs e He. rewrite writeRaw_run. cbn zeta. rewrite Hs, He.
    change (negb (200 =? OK_SUCCESS)) with false. split; reflexivity.
Qed.

(** X3: what a write returns determines what happened.  [writeFields]
    (with something staged) and [writeRaw] return 200 only if the transport
    said 200 and the entry ID is not 0, return -401 only on status 200, and
    return any other value only because it is the status of the transport;
    they throw exactly when the status is 200 and [stoi] throws on the
    body.  No error code is made up for a body that does not parse. *)
Theorem write_result_cases (channelNumber : Z) (postMessage writeAPIKey : string)
    (w : World) :
  let outcome_of (response : Http.Response) (result : Std.outcome Z) :=
    match result with
    | Std.Ret r =>
        (Http.get_status_code response <> 200 /\ r = Http.get_status_code response) \/
        (Http.get_status_code response = 200 /\ r = -401 /\
         Std.stoi (Http.get_body_as_string response) = Std.Ret 0) \/
        (Http.get_status_code response = 200 /\ r = 200 /\
         exists entryID : Z,
           entryID <> 0 /\
           Std.stoi (Http.get_body_as_string response) = Std.Ret entryID)
    | Std.Throw e =>
        Http.get_status_code response = 200 /\
        Std.stoi (Http.get_body_as_string response) = Std.Throw e
    end in
  (getWriteFieldsContentLength (this w) <> 0 ->
   outcome_of
     (send (wire w) (Http.with_body (update_request writeAPIKey) (encode (this w))))
     (fst (writeFields send channelNumber writeAPIKey w))) /\
  outcome_of
    (send (wire w)
       (Http.with_body (update_request writeAPIKey) (postMessage +:+ "&headers=false")))
    (fst (writeRaw send channelNumber postMessage writeAPIKey w)).
Proof.
  cbn zeta. split.
  - intros Hlen. rewrite writeFields_run by exact Hlen. cbn zeta. case_status.
    + rewrite Hstatus. destruct (Std.stoi _) as [entryID | e] eqn:He.
      * destruct (Z.eqb_spec entryID 0) as [-> | Hne]; cbn [fst].
        -- right; left. repeat split.
        -- right; right. repeat split. now exists entryID.
      * cbn [fst]. now split.
    + cbn [fst]. left. now split.
  - rewrite writeRaw_run. cbn zeta. case_status.
    + rewrite Hstatus. destruct (Std.stoi _) as [entryID | e] eqn:He.
      * destruct (Z.eqb_spec entryID 0) as [-> | Hne]; cbn [fst].
        -- right; left. repeat split.
        -- right; right. repeat split. now exists entryID.
      * cbn [fst]. now split.
    + cbn [fst]. left. now split.
Qed.

(** ** What a call does to the object *)

Lemma writeFields_object (channelNumber : Z) (writeAPIKey : string) (w : World) :
  exists n : nat,
    this (snd (writeFields send channelNumber writeAPIKey w)) =
    Nat.iter n resetWriteFields (this w).
Proof.
  destruct (Z.eq_dec (getWriteFieldsContentLength (this w)) 0) as [H0 | Hlen].
  - exists 0%nat. now rewrite writeFields_unstaged_run.
  - rewrite writeFields_run by exact Hlen. cbn zeta.
    destruct (negb _); [now exists 1%nat |].
    destruct (Std.stoi _) as [entryID | e]; [| now exists 1%nat].
    destruct (entryID =? 0); now exists 2%nat.
Qed.

Lemma writeRaw_object (channelNumber : Z) (postMessage writeAPIKey : string) (w : World) :
  exists n : nat,
    this (snd (writeRaw send channelNumber postMessage writeAPIKey w)) =
    Nat.iter n resetWriteFields (this w).
Proof.
  rewrite writeRaw_run. cbn zeta.
  destruct (negb _); [now exists 0%nat |].
  destruct (Std.stoi _) as [entryID | e]; [now exists 1%nat | now exists 0%nat].
Qed.

Lemma writeField_object (channelNumber field : Z) (value writeAPIKey : string) (w : World) :
  exists n : nat,
    this (snd (writeField send channelNumber field value writeAPIKey w)) =
    Nat.iter n resetWriteFields (this w).
Proof.
  unfold writeField.
  destruct (_ || _); [now exists 0%nat |].
  destruct (_ >? _); [now exists 0%nat |].
  apply writeRaw_object.
Qed.

Lemma readStringField_run (channelNumber field : Z) (readAPIKey : option string)
    (w : World) :
  1 <= field <= 8 ->
  readStringField send channelNumber field readAPIKey w =
  readRaw send channelNumber ("/fields/" +:+ Std.to_string field +:+ "/last")
    readAPIKey w.
Proof.
  intros Hf. unfold readStringField, FIELDNUM_MIN, FIELDNUM_MAX.
  destruct (Z.ltb_spec field 1); [lia |].
  destruct (Z.gtb_spec field 8); [lia |]. reflexivity.
Qed.

Lemma readStringField_invalid_run (channelNumber field : Z)
    (readAPIKey : option string) (w : World) :
  field < 1 \/ field > 8 ->
  readStringField send channelNumber field readAPIKey w =
  (Std.Ret "", mkWorld (set_lastReadStatus (-201) (this w)) (wire w) (console w)).
Proof.
  intros Hf. unfold readStringField, FIELDNUM_MIN, FIELDNUM_MAX.
  destruct (Z.ltb_spec field 1); [reflexivity |].
  destruct (Z.gtb_spec field 8); [reflexivity | lia].
Qed.

(** [readStatus] and [readCreatedAt] share their shape: a raw read, the
    status check, the extraction. *)
Lemma json_read_run (channelNumber : Z) (URLSuffix name : string)
    (readAPIKey : option string) (w : World) :
  let request := read_request channelNumber URLSuffix readAPIKey in
  let response := send (wire w) request in
  (let* content := readRaw send channelNumber URLSuffix readAPIKey in
   let* status := getLastReadStatus in
   if negb (status =? OK_SUCCESS) then ret ""
   else eval (getJSONValueByKey content name)) w =
  (if Http.get_status_code response =? 200
   then getJSONValueByKey (Std.c_str (Http.get_body_as_string response)) name
   else Std.Ret "",
   mkWorld (set_lastReadStatus (Http.get_status_code response) (this w))
     (wire w ++ [request]) (console w)).
Proof.
  cbn zeta. unfold bind at 1. rewrite readRaw_run. cbn zeta.
  run_member. cbn [lastReadStatus set_lastReadStatus]. unfold OK_SUCCESS.
  destruct (_ =? 200); reflexivity.
Qed.

Lemma read_object (c : call) (w : World) :
  is_read c = true ->
  exists s : Z,
    this (perform send c w) = set_lastReadStatus s (this w) /\
    console (perform send c w) = console w.
Proof.
  assert (Hraw : forall ch suffix key,
             exists s : Z,
               this (snd (readRaw send ch suffix key w)) = set_lastReadStatus s (this w) /\
               console (snd (readRaw send ch suffix key w)) = console w).
  { intros ch suffix key. rewrite readRaw_run. cbn zeta. eexists. now split. }
  assert (Hstr : forall ch field key,
             exists s : Z,
               this (snd (readStringField send ch field key w))
               = set_lastReadStatus s (this w) /\
               console (snd (readStringField send ch field key w)) = console w).
  { intros ch field key.
    destruct (Z_le_dec 1 field) as [Hlo |]; [destruct (Z_le_dec field 8) as [Hhi |] |].
    - rewrite readStringField_run by lia. apply Hraw.
    - rewrite readStringField_invalid_run by lia. eexists. now split.
    - rewrite readStringField_invalid_run by lia. eexists. now split. }
  assert (Hlong : forall ch field key,
             snd (readLongField send ch field key w)
             = snd (readStringField send ch field key w)).
  { intros ch field key. unfold readLongField, bind, eval.
    destruct (readStringField send ch field key w) as [[text | e] w']; reflexivity. }
  destruct c; try discriminate; intros _; cbn [perform].
  - apply Hraw.
  - apply Hstr.
  - rewrite Hlong. apply Hstr.
  - unfold readIntField. rewrite Hlong. apply Hstr.
  - unfold readStatus. rewrite json_read_run. cbn zeta. eexists. now split.
  - unfold readCreatedAt. rewrite json_read_run. cbn zeta. eexists. now split.
Qed.

Lemma write_side_object (c : call) (w : World) :
  is_write_side c = true ->
  lastReadStatus (this (perform send c w)) = lastReadStatus (this w).
Proof.
  assert (Hiter : forall (n : nat) (t : ThingSpeak),
             lastReadStatus (Nat.iter n resetWriteFields t) = lastReadStatus t).
  { induction n as [| n IH]; intros t; [reflexivity |]. cbn [Nat.iter]. apply IH. }
  assert (Hset : forall field value,
             lastReadStatus (this (snd (setField field value w)))
             = lastReadStatus (this w)).
  { intros field value. unfold setField.
    destruct (_ || _); [reflexivity |]. destruct (_ >? _); reflexivity. }
  destruct c; try discriminate; intros _; cbn [perform].
  - apply Hset.
  - apply Hset.
  - reflexivity.
  - reflexivity.
  - reflexivity.
  - unfold setStatus. destruct (_ >? _); reflexivity.
  - unfold setTwitterTweet. destruct (_ || _); reflexivity.
  - unfold setCreatedAt. destruct (_ >? _); reflexivity.
  - destruct (writeFields_object channelNumber writeAPIKey w) as [n ->]. apply Hiter.
  - destruct (writeRaw_object channelNumber postMessage writeAPIKey w) as [n ->].
    apply Hiter.
  - destruct (writeField_object channelNumber field value writeAPIKey w) as [n ->].
    apply Hiter.
  - unfold writeField_int.
    destruct (writeField_object channelNumber field (Std.to_string value) writeAPIKey w)
      as [n ->].
    apply Hiter.
  - reflexivity.
Qed.

(** X4: [writeField] checks its arguments before any network activity:
    an index outside 1..8 gives -201 and a value over 255 bytes gives -101,
    with the world untouched and no request made.  With valid arguments it
    makes exactly one request, whose payload is the C string of
    [field<N>=<value>&headers=false], [<N>] being one digit; a value
    without NUL bytes goes out whole. *)
Theorem writeField_validates (channelNumber field : Z) (value writeAPIKey : string)
    (w : World) :
  (field < 1 \/ field > 8 ->
   writeField send channelNumber field value writeAPIKey w = (Std.Ret (-201), w)) /\
  (1 <= field <= 8 -> Std.length value > 255 ->
   writeField send channelNumber field value writeAPIKey w = (Std.Ret (-101), w)) /\
  (1 <= field <= 8 -> Std.length value <= 255 ->
   let text := "field" +:+ Std.to_string field +:+ "=" +:+ value +:+ "&headers=false" in
   wire (snd (writeField send channelNumber field value writeAPIKey w)) =
   (wire w ++ [Http.with_body (update_request writeAPIKey) text])%list /\
   String.length (Std.to_string field) = 1%nat /\
   (no_nul value ->
    Http.body (Http.with_body (update_request writeAPIKey) text) = text)).
Proof.
  unfold writeField, FIELDNUM_MIN, FIELDNUM_MAX, FIELDLENGTH_MAX.
  split; [| split].
  - intros Hf. destruct (Z.ltb_spec field 1); [reflexivity |].
    destruct (Z.gtb_spec field 8); [reflexivity | lia].
  - intros Hf Hv. destruct (Z.ltb_spec field 1); [lia |].
    destruct (Z.gtb_spec field 8); [lia |]. cbn [orb].
    destruct (Z.gtb_spec (Std.length value) 255); [reflexivity | lia].
  - intros Hf Hv. destruct (Z.ltb_spec field 1); [lia |].
    destruct (Z.gtb_spec field 8); [lia |]. cbn [orb].
    destruct (Z.gtb_spec (Std.length value) 255); [lia |]. cbn zeta.
    assert (Hdigit : String.length (Std.to_string field) = 1%nat /\
                     no_nul (Std.to_string field)).
    { assert (Hc : field = 1 \/ field = 2 \/ field = 3 \/ field = 4 \/
                   field = 5 \/ field = 6 \/ field = 7 \/ field = 8) by lia.
      destruct Hc as [-> | [-> | [-> | [-> | [-> | [-> | [-> | ->]]]]]]];
        (split; [reflexivity | cbn; split; [discriminate | exact I]]). }
    destruct Hdigit as [Hlen Hnn].
    split; [| split; [exact Hlen |]].
    + rewrite writeRaw_run. cbn zeta. rewrite !append_assoc.
      destruct (negb _); [reflexivity |].
      destruct (Std.stoi _); reflexivity.
    + intros Hval. cbn [Http.with_body Http.body]. apply c_str_no_nul.
      apply no_nul_append; [cbn; repeat split; discriminate |].
      apply no_nul_append; [exact Hnn |].
      apply no_nul_append; [cbn; repeat split; discriminate |].
      apply no_nul_append; [exact Hval | cbn; repeat split; discriminate].
Qed.

(** ** Reads *)

(** X5: the four reads that return text.  Each valid call makes one
    request and stores the status of the transport in [lastReadStatus];
    on a status other than 200 it returns the empty string.  On status 200
    [readRaw] and [readStringField] return the body up to its first NUL
    byte, and [readStatus] / [readCreatedAt] return what
    [getJSONValueByKey] extracts from that for the key [status] /
    [created_at]; for a body that fits the target they always return, and
    never throw. *)
Theorem text_reads_outcome (channelNumber : Z) (readAPIKey : option string) (w : World) :
  let raw_like (response : Http.Response) (out : Std.outcome string * World) :=
    lastReadStatus (this (snd out)) = Http.get_status_code response /\
    (Http.get_status_code response <> 200 -> fst out = Std.Ret "") /\
    (Http.get_status_code response = 200 ->
     fst out = Std.Ret (Std.c_str (Http.get_body_as_string response))) in
  let json_like (name : string) (response : Http.Response)
      (out : Std.outcome string * World) :=
    lastReadStatus (this (snd out)) = Http.get_status_code response /\
    (Http.get_status_code response <> 200 -> fst out = Std.Ret "") /\
    (Http.get_status_code response = 200 ->
     fst out = getJSONValueByKey (Std.c_str (Http.get_body_as_string response)) name) /\
    (Std.length (Http.get_body_as_string response) <= Int.INT_MAX ->
     exists v : string, fst out = Std.Ret v) in
  (forall URLSuffix : string,
     raw_like (send (wire w) (read_request channelNumber URLSuffix readAPIKey))
       (readRaw send channelNumber URLSuffix readAPIKey w)) /\
  (forall field : Z, 1 <= field <= 8 ->
     raw_like
       (send (wire w)
          (read_request channelNumber ("/fields/" +:+ Std.to_string field +:+ "/last")
             readAPIKey))
       (readStringField send channelNumber field readAPIKey w)) /\
  json_like "status"
    (send (wire w) (read_request channelNumber "/feeds/last.txt?status=true" readAPIKey))
    (readStatus send channelNumber readAPIKey w) /\
  json_like "created_at"
    (send (wire w) (read_request channelNumber "/feeds/last.txt" readAPIKey))
    (readCreatedAt send channelNumber readAPIKey w).
Proof.
  cbn zeta.
  assert (Hraw : forall URLSuffix : string,
    let response := send (wire w) (read_request channelNumber URLSuffix readAPIKey) in
    let out := readRaw send channelNumber URLSuffix readAPIKey w in
    lastReadStatus (this (snd out)) = Http.get_status_code response /\
    (Http.get_status_code response <> 200 -> fst out = Std.Ret "") /\
    (Http.get_status_code response = 200 ->
     fst out = Std.Ret (Std.c_str (Http.get_body_as_string response)))).
  { intros URLSuffix. cbn zeta. rewrite readRaw_run. cbn zeta.
    cbn [fst snd this lastReadStatus set_lastReadStatus].
    split; [reflexivity |]. split; intros H.
    - match goal with |- context [?s =? 200] => destruct (Z.eqb_spec s 200) end;
        [contradiction | reflexivity].
    - now rewrite H. }
  assert (Hjson : forall URLSuffix name : string,
    let response := send (wire w) (read_request channelNumber URLSuffix readAPIKey) in
    let out :=
      (let* content := readRaw send channelNumber URLSuffix readAPIKey in
       let* status := getLastReadStatus in
       if negb (status =? OK_SUCCESS) then ret ""
       else eval (getJSONValueByKey content name)) w in
    lastReadStatus (this (snd out)) = Http.get_status_code response /\
    (Http.get_status_code response <> 200 -> fst out = Std.Ret "") /\
    (Http.get_status_code response = 200 ->
     fst out = getJSONValueByKey (Std.c_str (Http.get_body_as_string response)) name) /\
    (Std.length (Http.get_body_as_string response) <= Int.INT_MAX ->
     exists v : string, fst out = Std.Ret v)).
  { intros URLSuffix name. cbn zeta. rewrite json_read_run. cbn zeta.
    cbn [fst snd this lastReadStatus set_lastReadStatus].
    split; [reflexivity |].
    match goal with |- context [?s =? 200] => destruct (Z.eqb_spec s 200) as [E | N] end.
    - split; [intros; contradiction |]. split; [reflexivity |].
      intros Hmax. apply getJSONValueByKey_returns.
      match goal with |- Std.length (Std.c_str ?b) <= _ =>
        pose proof (c_str_length_le b) end. lia.
    - split; [reflexivity |]. split; [intros; contradiction |].
      intros _. now exists "". }
  split; [exact Hraw |]. split.
  - intros field Hf. rewrite readStringField_run by exact Hf. apply Hraw.
  - split; [apply (Hjson "/feeds/last.txt?status=true" "status") |
            apply (Hjson "/feeds/last.txt" "created_at")].
Qed.

(** X6: no read touches the pending update.  After [readRaw],
    [readStringField], [readLongField], [readIntField], [readStatus] or
    [readCreatedAt], whatever the arguments and the answer and whether the
    call returns or throws, the staged fields and texts and the coordinates
    are as before, and so are the body [writeFields] would send and its
    content length; nothing is printed. *)
Theorem reads_keep_pending (c : call) (w : World) :
  is_read c = true ->
  let w' := perform send c w in
  pending (this w') = pending (this w) /\
  nextWriteLatitude (this w') = nextWriteLatitude (this w) /\
  nextWriteLongitude (this w') = nextWriteLongitude (this w) /\
  nextWriteElevation (this w') = nextWriteElevation (this w) /\
  encode (this w') = encode (this w) /\
  getWriteFieldsContentLength (this w') = getWriteFieldsContentLength (this w) /\
  console w' = console w.
Proof.
  intros Hc. cbn zeta. destruct (read_object c w Hc) as (s & -> & Hconsole).
  repeat split; exact Hconsole.
Qed.

(** X7: [lastReadStatus] belongs to the reads alone.  No setter, no write
    and no [getLastReadStatus] call changes it: [getLastReadStatus] gives
    the same answer after such a call as before it. *)
Theorem write_side_keeps_lastReadStatus (c : call) (w : World) :
  is_write_side c = true ->
  lastReadStatus (this (perform send c w)) = lastReadStatus (this w) /\
  fst (getLastReadStatus (perform send c w)) = fst (getLastReadStatus w).
Proof.
  intros Hc. pose proof (write_side_object c w Hc) as H.
  split; [exact H |]. unfold getLastReadStatus. run_member. now rewrite H.
Qed.

Lemma readLongField_run (channelNumber field : Z) (readAPIKey : option string)
    (w : World) :
  readLongField send channelNumber field readAPIKey w =
  (match fst (readStringField send channelNumber field readAPIKey w) with
   | Std.Ret text => Std.stoi text
   | Std.Throw e => Std.Throw e
   end,
   snd (readStringField send channelNumber field readAPIKey w)).
Proof.
  unfold readLongField, bind, eval.
  destruct (readStringField send channelNumber field readAPIKey w) as [[text | e] w'];
    reflexivity.
Qed.

(** X8: the numeric reads.  [readLongField] hands the text it reads to
    [stoi]: on status 200 it returns the integer at the front of the body,
    or throws as [stoi] does.  Whenever the read itself fails, on an
    invalid field index (status -201 recorded, no request) or on a status
    other than 200, the text is empty and the call throws
    [invalid_argument] instead of returning a number.  [readIntField]
    behaves exactly like [readLongField]. *)
Theorem numeric_reads_outcome (channelNumber field : Z) (readAPIKey : option string)
    (w : World) :
  (field < 1 \/ field > 8 ->
   readLongField send channelNumber field readAPIKey w =
   (Std.Throw Std.invalid_argument,
    mkWorld (set_lastReadStatus (-201) (this w)) (wire w) (console w))) /\
  (1 <= field <= 8 ->
   let response :=
     send (wire w)
       (read_request channelNumber ("/fields/" +:+ Std.to_string field +:+ "/last")
          readAPIKey) in
   let out := readLongField send channelNumber field readAPIKey w in
   lastReadStatus (this (snd out)) = Http.get_status_code response /\
   (Http.get_status_code response <> 200 -> fst out = Std.Throw Std.invalid_argument) /\
   (Http.get_status_code response = 200 ->
    fst out = Std.stoi (Std.c_str (Http.get_body_as_string response)))) /\
  readIntField send channelNumber field readAPIKey w =
  readLongField send channelNumber field readAPIKey w.
Proof.
  split; [| split; [| reflexivity]].
  - intros Hf. rewrite readLongField_run, readStringField_invalid_run by exact Hf.
    reflexivity.
  - intros Hf. cbn zeta. rewrite readLongField_run, readStringField_run by exact Hf.
    rewrite readRaw_run. cbn zeta. cbn [fst snd this lastReadStatus set_lastReadStatus].
    split; [reflexivity |]. split; intros H.
    + match goal with |- context [?s =? 200] => destruct (Z.eqb_spec s 200) end;
        [contradiction | reflexivity].
    + now rewrite H.
Qed.

(** ** The interface as a whole *)

Lemma wire_step (c : call) (w : World) :
  wire (perform send c w) = wire w \/
  exists r : Http.Request,
    wire (perform send c w) = (wire w ++ [r])%list /\
    (if is_read c then Http.method r = Http.HTTP_GET
     else Http.method r = Http.HTTP_POST /\
          Http.url r = "http://api.thingspeak.com/update").
Proof.
  assert (Hraw : forall ch msg key,
             exists r : Http.Request,
               wire (snd (writeRaw send ch msg key w)) = (wire w ++ [r])%list /\
               Http.method r = Http.HTTP_POST /\
               Http.url r = "http://api.thingspeak.com/update").
  { intros ch msg key. rewrite writeRaw_run. cbn zeta. eexists. split.
    - destruct (negb _); [reflexivity |]. destruct (Std.stoi _); reflexivity.
    - now split. }
  assert (Hfield : forall ch field value key,
             wire (snd (writeField send ch field value key w)) = wire w \/
             exists r : Http.Request,
               wire (snd (writeField send ch field value key w)) = (wire w ++ [r])%list /\
               Http.method r = Http.HTTP_POST /\
               Http.url r = "http://api.thingspeak.com/update").
  { intros ch field value key. unfold writeField.
    destruct (_ || _); [now left |]. destruct (_ >? _); [now left |].
    right. apply Hraw. }
  assert (Hread : forall ch suffix key,
             exists r : Http.Request,
               wire (snd (readRaw send ch suffix key w)) = (wire w ++ [r])%list /\
               Http.method r = Http.HTTP_GET).
  { intros ch suffix key. rewrite readRaw_run. cbn zeta. eexists. split; [reflexivity |].
    unfold read_request. now destruct key. }
  assert (Hstr : forall ch field key,
             wire (snd (readStringField send ch field key w)) = wire w \/
             exists r : Http.Request,
               wire (snd (readStringField send ch field key w)) = (wire w ++ [r])%list /\
               Http.method r = Http.HTTP_GET).
  { intros ch field key.
    destruct (Z_le_dec 1 field) as [Hlo |]; [destruct (Z_le_dec field 8) as [Hhi |] |].
    - rewrite readStringField_run by lia. right. apply Hread.
    - rewrite readStringField_invalid_run by lia. now left.
    - rewrite readStringField_invalid_run by lia. now left. }
  destruct c; cbn [perform is_read]; try (now left).
  - unfold setField. destruct (_ || _); [now left |]. destruct (_ >? _); now left.
  - unfold setField_int, setField.
    destruct (_ || _); [now left |]. destruct (_ >? _); now left.
  - unfold setStatus. destruct (_ >? _); now left.
  - unfold setTwitterTweet. destruct (_ || _); now left.
  - unfold setCreatedAt. destruct (_ >? _); now left.
  - destruct (Z.eq_dec (getWriteFieldsContentLength (this w)) 0) as [H0 | Hlen].
    + left. now rewrite writeFields_unstaged_run.
    + right. rewrite writeFields_request by exact Hlen. eexists.
      split; [reflexivity | now split].
  - right. apply Hraw.
  - apply Hfield.
  - apply Hfield.
  - right. apply Hread.
  - apply Hstr.
  - rewrite readLongField_run. cbn [snd]. apply Hstr.
  - unfold readIntField. rewrite readLongField_run. cbn [snd]. apply Hstr.
  - right. unfold readStatus. rewrite json_read_run. cbn zeta. eexists.
    split; [reflexivity |]. unfold read_request. now destruct readAPIKey.
  - right. unfold readCreatedAt. rewrite json_read_run. cbn zeta. eexists.
    split; [reflexivity |]. unfold read_request. now destruct readAPIKey.
Qed.

(** X9: every call talks to the service at most once, and never rewrites
    history: the requests made before stay as they are and at most one is
    added, a GET for a read and a POST to the update URL for a write.
    [begin], the setters and [getLastReadStatus] add none. *)
Theorem one_request_per_call (c : call) (w : World) :
  (is_local c = true -> wire (perform send c w) = wire w) /\
  (wire (perform send c w) = wire w \/
   exists r : Http.Request,
     wire (perform send c w) = (wire w ++ [r])%list /\
     (if is_read c then Http.method r = Http.HTTP_GET
      else Http.method r = Http.HTTP_POST /\
           Http.url r = "http://api.thingspeak.com/update")).
Proof.
  split; [| apply wire_step].
  destruct c; try discriminate; intros _; cbn [perform]; try reflexivity.
  - unfold setField. destruct (_ || _); [reflexivity |]. destruct (_ >? _); reflexivity.
  - unfold setField_int, setField.
    destruct (_ || _); [reflexivity |]. destruct (_ >? _); reflexivity.
  - unfold setStatus. destruct (_ >? _); reflexivity.
  - unfold setTwitterTweet. destruct (_ || _); reflexivity.
  - unfold setCreatedAt. destruct (_ >? _); reflexivity.
Qed.

Lemma resetWriteFields_iter_invariant (n : nat) (t : ThingSpeak) :
  wf t /\ bounded t ->
  wf (Nat.iter n resetWriteFields t) /\ bounded (Nat.iter n resetWriteFields t).
Proof.
  intros H. induction n as [| n [IHw IHb]]; [exact H |]. cbn [Nat.iter].
  split; [now apply resetWriteFields_wf | apply resetWriteFields_bounded].
Qed.

Lemma perform_invariant (c : call) (w : World) :
  wf (this w) /\ bounded (this w) ->
  wf (this (perform send c w)) /\ bounded (this (perform send c w)).
Proof.
  intros [Hw Hb].
  destruct (is_read c) eqn:Hr.
  { destruct (read_object c w Hr) as (s & -> & _). now split. }
  destruct c; try discriminate; cbn [perform].
  - split; [apply (resetWriteFields_wf _ Hw) | apply resetWriteFields_bounded].
  - now apply setField_invariant.
  - now apply setField_invariant.
  - now split.
  - now split.
  - now split.
  - split; [| now apply text_setters_invariant].
    unfold setStatus. destruct (_ >? _); exact Hw.
  - split; [| now apply text_setters_invariant].
    unfold setTwitterTweet. destruct (_ || _); exact Hw.
  - split; [| now apply text_setters_invariant].
    unfold setCreatedAt. destruct (_ >? _); exact Hw.
  - destruct (writeFields_object channelNumber writeAPIKey w) as [n ->].
    now apply resetWriteFields_iter_invariant.
  - destruct (writeRaw_object channelNumber postMessage writeAPIKey w) as [n ->].
    now apply resetWriteFields_iter_invariant.
  - destruct (writeField_object channelNumber field value writeAPIKey w) as [n ->].
    now apply resetWriteFields_iter_invariant.
  - unfold writeField_int.
    destruct (writeField_object channelNumber field (Std.to_string value) writeAPIKey w)
      as [n ->].
    now apply resetWriteFields_iter_invariant.
  - now split.
Qed.

(** X10: whatever sequence of calls a program makes on a freshly
    constructed object, and whatever the transport answers, the array
    keeps its eight slots and every staged string has at most 255 bytes.
    So on every state a program can reach, once something is staged the
    content length is the exact length of the body [writeFields] builds,
    and it is 0 exactly when nothing is staged. *)
Theorem reachable_invariant (w : World) :
  reachable send w ->
  wf (this w) /\ bounded (this w) /\
  (staged (this w) ->
   getWriteFieldsContentLength (this w) = Std.length (encode (this w))) /\
  (getWriteFieldsContentLength (this w) = 0 <-> nothing_staged (this w)).
Proof.
  intros H.
  assert (Hinv : wf (this w) /\ bounded (this w)).
  { induction H as [| c w _ IH].
    - split; [apply ThingSpeak_new_wf | apply ThingSpeak_new_bounded].
    - now apply perform_invariant. }
  destruct Hinv as [Hw Hb]. split; [exact Hw |]. split; [exact Hb |]. split.
  - now apply content_length_staged.
  - now apply content_length_zero_iff.
Qed.

(** X11: the guard of [writeFields] is exact on states that respect the
    255-byte limit: it makes a request if and only if something is staged.
    With nothing staged it returns -210 and leaves the object alone. *)
Theorem writeFields_guard (channelNumber : Z) (writeAPIKey : string) (w : World) :
  bounded (this w) ->
  (wire (snd (writeFields send channelNumber writeAPIKey w)) = wire w <->
   nothing_staged (this w)) /\
  (nothing_staged (this w) ->
   fst (writeFields send channelNumber writeAPIKey w) = Std.Ret (-210) /\
   this (snd (writeFields send channelNumber writeAPIKey w)) = this w).
Proof.
  intros Hb. pose proof (content_length_zero_iff (this w) Hb) as Hiff. split.
  - split.
    + intros Hwire. apply Hiff.
      destruct (Z.eq_dec (getWriteFieldsContentLength (this w)) 0) as [H0 | Hlen];
        [exact H0 |].
      rewrite writeFields_request in Hwire by exact Hlen.
      apply (f_equal (@List.length Http.Request)) in Hwire.
      rewrite length_app in Hwire. cbn in Hwire. lia.
    + intros Hn. apply Hiff in Hn. now rewrite writeFields_unstaged_run.
  - intros Hn. apply Hiff in Hn. now rewrite writeFields_unstaged_run.
Qed.

End Coverage.

(** ** Setters *)

Lemma setField_success_run (field : Z) (value : string) (w : World) :
  1 <= field <= 8 -> Std.length value <= 255 ->
  setField field value w =
  (Std.Ret 200,
   mkWorld
     (set_nextWriteField (<[Z.to_nat (field - 1) := value]> (nextWriteField (this w)))
        (this w))
     (wire w) (console w)).
Proof.
  intros Hf Hv. unfold setField, FIELDNUM_MIN, FIELDNUM_MAX, FIELDLENGTH_MAX.
  destruct (Z.ltb_spec field 1); [lia |].
  destruct (Z.gtb_spec field 8); [lia |]. cbn [orb].
  destruct (Z.gtb_spec (Std.length value) 255); [lia |]. reflexivity.
Qed.

(** X12: staging the empty string stages nothing.  [setField(i, "")]
    with a valid index returns 200 like any other store, but it empties the
    slot: if no other field or text is staged, nothing is staged
    afterwards, and [writeFields] then returns -210 without a request. *)
Theorem setField_empty_unstages (field : Z) (w : World) :
  1 <= field <= 8 ->
  (forall j : nat, (j < 8)%nat -> j <> Z.to_nat (field - 1) ->
     nextWriteField (this w) !!! j = "") ->
  nextWriteStatus (this w) = "" -> nextWriteTwitter (this w) = "" ->
  nextWriteTweet (this w) = "" -> nextWriteCreatedAt (this w) = "" ->
  let w' := snd (setField field "" w) in
  fst (setField field "" w) = Std.Ret 200 /\
  nothing_staged (this w') /\
  forall (send : list Http.Request -> Http.Request -> Http.Response)
         (channelNumber : Z) (writeAPIKey : string),
    fst (writeFields send channelNumber writeAPIKey w') = Std.Ret (-210) /\
    wire (snd (writeFields send channelNumber writeAPIKey w')) = wire w.
Proof.
  intros Hf Hother Hs Htw Htt Hc. cbn zeta.
  rewrite setField_success_run by (try assumption; vm_compute; discriminate).
  cbn [fst snd this].
  assert (Hn : nothing_staged
                 (set_nextWriteField
                    (<[Z.to_nat (field - 1) := ""]> (nextWriteField (this w))) (this w))).
  { split; [| now repeat split]. intros j Hj. cbn [set_nextWriteField nextWriteField].
    destruct (Nat.eq_dec j (Z.to_nat (field - 1))) as [-> | Hne].
    - apply lookup_total_insert_same.
    - rewrite list_lookup_total_insert_ne by congruence. now apply Hother. }
  split; [reflexivity |]. split; [exact Hn |].
  intros send channelNumber writeAPIKey.
  rewrite writeFields_unstaged_run
    by (cbn [this]; now apply contentLength_nothing_staged).
  split; reflexivity.
Qed.

(** X13: the text setters.  [setStatus] and [setCreatedAt] refuse a
    string over 255 bytes with -101 and store a shorter one; and
    [setTwitterTweet] is all or nothing: if either string is over 255
    bytes it returns -101 and stores neither, otherwise it stores both.  A
    refused call leaves the world untouched; an accepted one returns 200 and
    changes only its own members. *)
Theorem text_setters_spec (w : World) :
  (forall status : string,
     (Std.length status > 255 -> setStatus status w = (Std.Ret (-101), w)) /\
     (Std.length status <= 255 ->
      setStatus status w =
      (Std.Ret 200, mkWorld (set_nextWriteStatus status (this w)) (wire w) (console w)))) /\
  (forall twitter tweet : string,
     (Std.length twitter > 255 \/ Std.length tweet > 255 ->
      setTwitterTweet twitter tweet w = (Std.Ret (-101), w)) /\
     (Std.length twitter <= 255 -> Std.length tweet <= 255 ->
      let w' := snd (setTwitterTweet twitter tweet w) in
      fst (setTwitterTweet twitter tweet w) = Std.Ret 200 /\
      nextWriteTwitter (this w') = twitter /\ nextWriteTweet (this w') = tweet /\
      nextWriteField (this w') = nextWriteField (this w) /\
      nextWriteStatus (this w') = nextWriteStatus (this w) /\
      nextWriteCreatedAt (this w') = nextWriteCreatedAt (this w) /\
      lastReadStatus (this w') = lastReadStatus (this w) /\
      wire w' = wire w /\ console w' = console w)) /\
  (forall createdAt : string,
     (Std.length createdAt > 255 -> setCreatedAt createdAt w = (Std.Ret (-101), w)) /\
     (Std.length createdAt <= 255 ->
      setCreatedAt createdAt w =
      (Std.Ret 200,
       mkWorld (set_nextWriteCreatedAt createdAt (this w)) (wire w) (console w)))).
Proof.
  unfold setStatus, setTwitterTweet, setCreatedAt, FIELDLENGTH_MAX.
  split; [| split].
  - intros status. destruct (Z.gtb_spec (Std.length status) 255);
      split; intros; try lia; reflexivity.
  - intros twitter tweet.
    destruct (Z.gtb_spec (Std.length twitter) 255) as [Ha | Ha];
      destruct (Z.gtb_spec (Std.length tweet) 255) as [Hb | Hb]; cbn [orb]; split.
    + reflexivity.
    + intros; lia.
    + reflexivity.
    + intros; lia.
    + reflexivity.
    + intros; lia.
    + intros [H | H]; lia.
    + intros _ _. cbn zeta. repeat split.
  - intros createdAt. destruct (Z.gtb_spec (Std.length createdAt) 255);
      split; intros; try lia; reflexivity.
Qed.

Lemma writeFields_depends_on (send : list Http.Request -> Http.Request -> Http.Response)
    (channelNumber : Z) (writeAPIKey : string) (w w' : World) :
  getWriteFieldsContentLength (this w') = getWriteFieldsContentLength (this w) ->
  encode (this w') = encode (this w) ->
  wire w' = wire w -> console w' = console w ->
  fst (writeFields send channelNumber writeAPIKey w') =
  fst (writeFields send channelNumber writeAPIKey w) /\
  wire (snd (writeFields send channelNumber writeAPIKey w')) =
  wire (snd (writeFields send channelNumber writeAPIKey w)) /\
  console (snd (writeFields send channelNumber writeAPIKey w')) =
  console (snd (writeFields send channelNumber writeAPIKey w)).
Proof.
  intros Hlen Henc Hwire Hcons.
  destruct (Z.eq_dec (getWriteFieldsContentLength (this w)) 0) as [H0 | Hne].
  - rewrite !writeFields_unstaged_run by congruence.
    cbn [fst snd wire console]. now rewrite Hwire, Hcons.
  - rewrite !writeFields_run by congruence. cbn zeta.
    rewrite Henc, Hwire, Hcons.
    destruct (negb _); [now repeat split |].
    destruct (Std.stoi _) as [entryID | e]; [| now repeat split].
    destruct (entryID =? 0); now repeat split.
Qed.

(** X14: the coordinates never reach the service.  [setLatitude],
    [setLongitude] and [setElevation] always return 200 and store their
    argument, but the stored value plays no part in the content length or
    in the body: a [writeFields] after any of them returns the same result
    and makes the same request (or the same lack of one) as without it.  A
    location alone stages nothing. *)
Theorem location_is_never_sent (x : spec_float) (w : World) :
  let unsent (out : Std.outcome Z * World) :=
    fst out = Std.Ret 200 /\
    pending (this (snd out)) = pending (this w) /\
    getWriteFieldsContentLength (this (snd out)) = getWriteFieldsContentLength (this w) /\
    encode (this (snd out)) = encode (this w) /\
    forall (send : list Http.Request -> Http.Request -> Http.Response)
           (channelNumber : Z) (writeAPIKey : string),
      fst (writeFields send channelNumber writeAPIKey (snd out)) =
      fst (writeFields send channelNumber writeAPIKey w) /\
      wire (snd (writeFields send channelNumber writeAPIKey (snd out))) =
      wire (snd (writeFields send channelNumber writeAPIKey w)) in
  (unsent (setLatitude x w) /\ nextWriteLatitude (this (snd (setLatitude x w))) = x) /\
  (unsent (setLongitude x w) /\ nextWriteLongitude (this (snd (setLongitude x w))) = x) /\
  (unsent (setElevation x w) /\ nextWriteElevation (this (snd (setElevation x w))) = x).
Proof.
  cbn zeta. repeat split;
    intros; apply (writeFields_depends_on send channelNumber writeAPIKey w);
    reflexivity.
Qed.

(** X15: within one pending update the last value set for a field wins,
    and values set for different fields do not disturb each other: two
    accepted [setField] calls on the same index leave the state the second
    alone would leave, and two on different indices commute. *)
Theorem setField_composes (i j : Z) (v u : string) (w : World) :
  1 <= i <= 8 -> 1 <= j <= 8 -> Std.length v <= 255 -> Std.length u <= 255 ->
  snd (setField i u (snd (setField i v w))) = snd (setField i u w) /\
  (i <> j ->
   snd (setField j u (snd (setField i v w))) = snd (setField i v (snd (setField j u w)))).
Proof.
  intros Hi Hj Hv Hu. split.
  - rewrite !setField_success_run by assumption.
    cbn [snd this wire console set_nextWriteField nextWriteField nextWriteLatitude
         nextWriteLongitude nextWriteElevation lastReadStatus nextWriteStatus
         nextWriteTwitter nextWriteTweet nextWriteCreatedAt].
    now rewrite list_insert_insert_eq.
  - intros Hne. rewrite !setField_success_run by assumption.
    cbn [snd this wire console set_nextWriteField nextWriteField nextWriteLatitude
         nextWriteLongitude nextWriteElevation lastReadStatus nextWriteStatus
         nextWriteTwitter nextWriteTweet nextWriteCreatedAt].
    rewrite (list_insert_insert_ne _ (Z.to_nat (j - 1)) (Z.to_nat (i - 1))) by lia.
    reflexivity.
Qed.

(** ** The extractor, read backwards *)

Lemma getJSONValueByKey_shape (t k : string) :
  Std.length t <= Int.INT_MAX ->
  getJSONValueByKey t k = Std.Ret "" \/
  exists pre v rest : string,
    t = pre +:+ key_phrase k +:+ v +:+ dquote +:+ rest /\
    (forall q : nat, occurs_at (key_phrase k) t q -> (String.length pre <= q)%nat) /\
    (forall q : nat, ~ occurs_at dquote v q) /\
    getJSONValueByKey t k = Std.Ret v.
Proof.
  intros Hmax.
  destruct (getJSONValueByKey_cases t k Hmax) as (_ & Hnone & Hval & Hopen).
  destruct (first_occurrence (key_phrase k) t) as [H | (pre & tail & Ht & Hfirst)].
  - left. now apply Hnone.
  - destruct (first_occurrence dquote tail) as [H | (v & rest & Htail & Hq)].
    + left. now apply (Hopen pre tail).
    + right. exists pre, v, rest.
      assert (Hquote : forall q : nat, ~ occurs_at dquote v q).
      { intros q (a & b & Hv & Hlen).
        assert (Hocc : occurs_at dquote tail q).
        { exists a, (b +:+ dquote +:+ rest). split; [| exact Hlen].
          rewrite Htail, Hv. now rewrite !append_assoc. }
        apply Hq in Hocc. apply (f_equal String.length) in Hv.
        rewrite !length_append in Hv. change (String.length dquote) with 1%nat in Hv.
        lia. }
      split; [now rewrite Ht, Htail |]. split; [exact Hfirst |].
      split; [exact Hquote |].
      apply (Hval pre v rest); [now rewrite Ht, Htail | exact Hfirst | exact Hquote].
Qed.

(** X16: [getJSONValueByKey] makes nothing up.  On a text that fits the
    target, a non-empty result [v] is always present in the text as a
    quoted value: the text reads, from the first occurrence of the phrase
    for the key, phrase, [v], double quote; and [v] itself holds no double
    quote.  So an empty result is the only way the function reports a
    missing key, a missing closing quote or an empty value. *)
Theorem getJSONValueByKey_sound (t k v : string) :
  Std.length t <= Int.INT_MAX ->
  getJSONValueByKey t k = Std.Ret v -> v <> "" ->
  (exists pre rest : string,
     t = pre +:+ key_phrase k +:+ v +:+ dquote +:+ rest /\
     forall q : nat, occurs_at (key_phrase k) t q -> (String.length pre <= q)%nat) /\
  (forall q : nat, ~ occurs_at dquote v q).
Proof.
  intros Hmax Hret Hne.
  destruct (getJSONValueByKey_shape t k Hmax)
    as [E | (pre & v' & rest & Ht & Hfirst & Hquote & E)];
    rewrite E in Hret; injection Hret as <-; [contradiction |].
  split; [now exists pre, rest | exact Hquote].
Qed.

(** ** What goes out on the wire *)

Lemma body_term_no_nul (name value : string) (acc : string * bool) :
  no_nul name -> no_nul value -> no_nul (fst acc) ->
  no_nul (fst (body_term name value acc)).
Proof.
  intros Hn Hv Ha. destruct acc as [body first]. unfold body_term.
  destruct (Std.length value >? 0); [| exact Ha]. cbn [fst] in *.
  apply no_nul_append; [| exact Hv]. apply no_nul_append; [| exact Hn].
  destruct first; cbn [negb]; [exact Ha |].
  apply no_nul_append; [exact Ha | cbn; split; [discriminate | exact I]].
Qed.

Lemma terms_fold_no_nul (l : list (string * string)) :
  Forall (fun term => no_nul (fst term) /\ no_nul (snd term)) l ->
  forall acc : string * bool,
    no_nul (fst acc) ->
    no_nul (fst (foldl (fun acc term => body_term (fst term +:+ "=") (snd term) acc)
                   acc l)).
Proof.
  induction 1 as [| term l [Hn Hv] _ IH]; intros acc Ha; [exact Ha |].
  cbn [foldl]. apply IH. apply body_term_no_nul; [| exact Hv | exact Ha].
  apply no_nul_append; [exact Hn | cbn; split; [discriminate | exact I]].
Qed.

Lemma encode_no_nul (t : ThingSpeak) :
  (forall i : nat, (i < 8)%nat -> no_nul (nextWriteField t !!! i)) ->
  no_nul (nextWriteStatus t) -> no_nul (nextWriteTwitter t) ->
  no_nul (nextWriteTweet t) -> no_nul (nextWriteCreatedAt t) ->
  no_nul (encode t).
Proof.
  intros Hf Hs Htw Htt Hc. rewrite encode_by_terms.
  apply no_nul_append; [| cbn; repeat split; discriminate].
  apply terms_fold_no_nul; [| exact I].
  unfold terms.
  repeat (apply Forall_cons; split;
          [split; [cbn; repeat split; discriminate | first [apply Hf; lia | assumption]] |]).
  apply Forall_nil_2.
Qed.

(** X17: the payload [writeFields] sends is the body it built, cut at
    the first NUL byte.  On a state within the 255-byte limit with
    something staged, the payload is therefore never longer than the
    content length, and when no staged value holds a NUL byte it is the
    whole body, of exactly the content length. *)
Theorem writeFields_payload
    (send : list Http.Request -> Http.Request -> Http.Response)
    (channelNumber : Z) (writeAPIKey : string) (w : World) :
  bounded (this w) -> staged (this w) ->
  let request := Http.with_body (update_request writeAPIKey) (encode (this w)) in
  wire (snd (writeFields send channelNumber writeAPIKey w)) = (wire w ++ [request])%list /\
  Http.body request = Std.c_str (encode (this w)) /\
  Std.length (Http.body request) <= getWriteFieldsContentLength (this w) /\
  ((forall i : nat, (i < 8)%nat -> no_nul (nextWriteField (this w) !!! i)) ->
   no_nul (nextWriteStatus (this w)) -> no_nul (nextWriteTwitter (this w)) ->
   no_nul (nextWriteTweet (this w)) -> no_nul (nextWriteCreatedAt (this w)) ->
   Http.body request = encode (this w) /\
   Std.length (Http.body request) = getWriteFieldsContentLength (this w)).
Proof.
  intros Hb Hs. cbn zeta.
  pose proof (content_length_staged (this w) Hb Hs) as E.
  pose proof (encode_length_pos (this w)) as Hpos.
  split; [apply writeFields_request; lia |]. split; [reflexivity |].
  cbn [Http.with_body Http.body]. split.
  - rewrite E. apply c_str_length_le.
  - intros Hf H1 H2 H3 H4.
    rewrite (c_str_no_nul _ (encode_no_nul (this w) Hf H1 H2 H3 H4)).
    split; [reflexivity | now rewrite E].
Qed.

(** ** Initialisation *)

(** X18: [begin] discards whatever is pending.  In any state it returns
    true without a request and leaves nothing staged, the coordinates at
    NaN and [lastReadStatus] at 200, so a [writeFields] right after it
    returns -210. *)
Theorem begin_discards_pending (w : World) :
  let w' := snd (begin w) in
  fst (begin w) = Std.Ret true /\
  nothing_staged (this w') /\
  getWriteFieldsContentLength (this w') = 0 /\
  lastReadStatus (this w') = 200 /\
  nextWriteLatitude (this w') = S754_nan /\
  nextWriteLongitude (this w') = S754_nan /\
  nextWriteElevation (this w') = S754_nan /\
  wire w' = wire w /\ console w' = console w /\
  forall (send : list Http.Request -> Http.Request -> Http.Response)
         (channelNumber : Z) (writeAPIKey : string),
    fst (writeFields send channelNumber writeAPIKey w') = Std.Ret (-210) /\
    wire (snd (writeFields send channelNumber writeAPIKey w')) = wire w.
Proof.
  cbn zeta. unfold begin. run_member.
  assert (Hn : nothing_staged (set_lastReadStatus OK_SUCCESS (resetWriteFields (this w)))).
  { exact (resetWriteFields_nothing_staged (this w)). }
  pose proof (contentLength_nothing_staged _ Hn) as H0.
  split; [reflexivity |]. split; [exact Hn |]. split; [exact H0 |].
  do 6 (split; [reflexivity |]).
  intros send channelNumber writeAPIKey.
  rewrite writeFields_unstaged_run by exact H0. split; reflexivity.
Qed.

(** ** The further properties at concrete inputs *)

Lemma two_fields_content_length : getWriteFieldsContentLength (this two_fields) <> 0.
Proof. vm_compute. discriminate. Defined.

Lemma writeFields_sends_once_witness :
  getWriteFieldsContentLength (this two_fields) <> 0 /\
  getWriteFieldsContentLength
    (this (snd (writeFields (reply 404 "") 1 "KEY" two_fields))) = 0 /\
  fst (writeFields (reply 404 "") 2 "KEY"
         (snd (writeFields (reply 404 "") 1 "KEY" two_fields))) = Std.Ret (-210).
Proof.
  split; [exact two_fields_content_length |].
  destruct (writeFields_sends_once (reply 404 "") 1 2 "KEY" "KEY" two_fields
              two_fields_content_length) as (_ & H0 & _ & Hret & _).
  split; assumption.
Defined.

Lemma writeRaw_keeps_object_witness :
  Http.get_status_code (reply 404 "" [] (Http.mkRequest Http.HTTP_POST "" [] "")) <> 200 /\
  this (snd (writeRaw (reply 404 "") 1 "field3=4" "KEY" two_fields)) = this two_fields /\
  Std.stoi "abc" = Std.Throw Std.invalid_argument /\
  fst (writeRaw (reply 200 "abc") 1 "field3=4" "KEY" two_fields)
  = Std.Throw Std.invalid_argument.
Proof.
  split; [discriminate |]. split; [| split; [reflexivity |]].
  - apply (proj1 (writeRaw_keeps_object (reply 404 "") 1 "field3=4" "KEY" two_fields)).
    discriminate.
  - apply (proj2 (writeRaw_keeps_object (reply 200 "abc") 1 "field3=4" "KEY" two_fields)
             eq_refl Std.invalid_argument eq_refl).
Defined.

Lemma write_result_cases_witness :
  getWriteFieldsContentLength (this two_fields) <> 0 /\
  Http.get_status_code
    (reply 200 "12" (wire two_fields)
       (Http.with_body (update_request "KEY") (encode (this two_fields)))) = 200 /\
  fst (writeFields (reply 200 "12") 1 "KEY" two_fields) = Std.Ret 200.
Proof.
  split; [exact two_fields_content_length |]. split; [reflexivity |].
  pose proof (proj1 (write_result_cases (reply 200 "12") 1 "" "KEY" two_fields)
                two_fields_content_length) as H.
  cbn zeta in H.
  destruct (fst (writeFields (reply 200 "12") 1 "KEY" two_fields)) as [r | e].
  - destruct H as [[H _] | [(_ & _ & H) | (_ & -> & _)]];
      [exfalso; apply H; reflexivity | discriminate H | reflexivity].
  - destruct H as [_ H]. discriminate H.
Defined.

Lemma writeField_validates_witness :
  (0 < 1 \/ 0 > 8) /\
  writeField (reply 200 "1") 1 0 "5" "KEY" fresh = (Std.Ret (-201), fresh) /\
  1 <= 3 <= 8 /\ Std.length "5" <= 255 /\ no_nul "5" /\
  Http.body (Http.with_body (update_request "KEY") "field3=5&headers=false")
  = "field3=5&headers=false".
Proof.
  assert (H0 : 0 < 1 \/ 0 > 8) by (left; lia).
  assert (H3 : 1 <= 3 <= 8) by lia.
  assert (Hv : Std.length "5" <= 255) by (vm_compute; discriminate).
  assert (Hn : no_nul "5") by (cbn; split; [discriminate | exact I]).
  destruct (writeField_validates (reply 200 "1") 1 0 "5" "KEY" fresh) as (Hbad & _ & _).
  destruct (writeField_validates (reply 200 "1") 1 3 "5" "KEY" fresh) as (_ & _ & Hok).
  destruct (Hok H3 Hv) as (_ & _ & Hbody).
  split; [exact H0 |]. split; [exact (Hbad H0) |]. split; [exact H3 |].
  split; [exact Hv |]. split; [exact Hn |]. exact (Hbody Hn).
Defined.

Lemma text_reads_outcome_witness :
  1 <= 2 <= 8 /\
  Http.get_status_code (reply 404 "gone" [] (Http.mkRequest Http.HTTP_GET "" [] "")) <> 200 /\
  fst (readStringField (reply 404 "gone") 1 2 None fresh) = Std.Ret "" /\
  Std.length feed_text <= Int.INT_MAX /\
  exists v : string, fst (readStatus (reply 200 feed_text) 1 None fresh) = Std.Ret v.
Proof.
  assert (H2 : 1 <= 2 <= 8) by lia.
  assert (Hmax : Std.length feed_text <= Int.INT_MAX) by (vm_compute; discriminate).
  split; [exact H2 |]. split; [discriminate |]. split; [| split; [exact Hmax |]].
  - destruct (text_reads_outcome (reply 404 "gone") 1 None fresh) as (_ & Hstr & _).
    destruct (Hstr 2 H2) as (_ & Hfail & _). apply Hfail. discriminate.
  - destruct (text_reads_outcome (reply 200 feed_text) 1 None fresh)
      as (_ & _ & (_ & _ & _ & Hret) & _).
    exact (Hret Hmax).
Defined.

Lemma reads_keep_pending_witness :
  is_read (call_readStatus 1 None) = true /\
  pending (this (perform (reply 200 feed_text) (call_readStatus 1 None) two_fields))
  = pending (this two_fields).
Proof.
  split; [reflexivity |].
  apply (reads_keep_pending (reply 200 feed_text) (call_readStatus 1 None) two_fields
           eq_refl).
Defined.

Lemma write_side_keeps_lastReadStatus_witness :
  is_write_side (call_writeRaw 1 "field1=2" "KEY") = true /\
  lastReadStatus
    (this (perform (reply 404 "") (call_writeRaw 1 "field1=2" "KEY") fresh))
  = lastReadStatus (this fresh).
Proof.
  split; [reflexivity |].
  apply (write_side_keeps_lastReadStatus (reply 404 "")
           (call_writeRaw 1 "field1=2" "KEY") fresh eq_refl).
Defined.

Lemma numeric_reads_outcome_witness :
  (0 < 1 \/ 0 > 8) /\
  fst (readLongField (reply 200 "7") 1 0 None fresh) = Std.Throw Std.invalid_argument /\
  1 <= 1 <= 8 /\
  fst (readLongField (reply 200 "42") 1 1 None fresh) = Std.Ret 42.
Proof.
  assert (H0 : 0 < 1 \/ 0 > 8) by (left; lia).
  assert (H1 : 1 <= 1 <= 8) by lia.
  split; [exact H0 |]. split; [| split; [exact H1 |]].
  - destruct (numeric_reads_outcome (reply 200 "7") 1 0 None fresh) as (H & _).
    now rewrite (H H0).
  - destruct (numeric_reads_outcome (reply 200 "42") 1 1 None fresh) as (_ & H & _).
    destruct (H H1) as (_ & _ & Hok). now rewrite (Hok eq_refl).
Defined.

Lemma one_request_per_call_witness :
  is_local (call_setStatus "on") = true /\
  wire (perform (reply 200 "1") (call_setStatus "on") two_fields) = wire two_fields.
Proof.
  split; [reflexivity |].
  apply (proj1 (one_request_per_call (reply 200 "1") (call_setStatus "on") two_fields)).
  reflexivity.
Defined.

Lemma reachable_invariant_witness :
  reachable (reply 200 "1")
    (perform (reply 200 "1") (call_writeFields 1 "KEY")
       (perform (reply 200 "1") (call_setField 1 "10") fresh)) /\
  bounded
    (this (perform (reply 200 "1") (call_writeFields 1 "KEY")
             (perform (reply 200 "1") (call_setField 1 "10") fresh))).
Proof.
  assert (H : reachable (reply 200 "1")
                (perform (reply 200 "1") (call_writeFields 1 "KEY")
                   (perform (reply 200 "1") (call_setField 1 "10") fresh))).
  { apply reach_call, reach_call, reach_fresh. }
  split; [exact H |].
  destruct (reachable_invariant (reply 200 "1") _ H) as (_ & Hb & _). exact Hb.
Defined.

Lemma writeFields_guard_witness :
  bounded (this two_fields) /\
  wire (snd (writeFields (reply 200 "1") 1 "KEY" two_fields)) <> wire two_fields.
Proof.
  split; [exact two_fields_bounded |]. intros Hwire.
  apply (proj1 (proj1 (writeFields_guard (reply 200 "1") 1 "KEY" two_fields
                         two_fields_bounded))) in Hwire.
  exact (staged_not_nothing _ two_fields_staged Hwire).
Defined.

Lemma setField_empty_unstages_witness :
  1 <= 1 <= 8 /\
  fst (setField 1 "" (snd (setField 1 "10" fresh))) = Std.Ret 200 /\
  nothing_staged (this (snd (setField 1 "" (snd (setField 1 "10" fresh))))).
Proof.
  assert (H1 : 1 <= 1 <= 8) by lia.
  split; [exact H1 |].
  assert (Hother : forall j : nat, (j < 8)%nat -> j <> Z.to_nat (1 - 1) ->
            nextWriteField (this (snd (setField 1 "10" fresh))) !!! j = "").
  { intros j Hj Hne. do 8 (destruct j as [| j]; [try reflexivity; now elim Hne |]). lia. }
  destruct (setField_empty_unstages 1 (snd (setField 1 "10" fresh)) H1 Hother
              eq_refl eq_refl eq_refl eq_refl) as (Hret & Hn & _).
  split; assumption.
Defined.

Lemma text_setters_spec_witness :
  Std.length "a" <= 255 /\ Std.length "b" <= 255 /\
  fst (setTwitterTweet "a" "b" fresh) = Std.Ret 200 /\
  nextWriteTweet (this (snd (setTwitterTweet "a" "b" fresh))) = "b".
Proof.
  assert (Ha : Std.length "a" <= 255) by (vm_compute; discriminate).
  assert (Hb : Std.length "b" <= 255) by (vm_compute; discriminate).
  destruct (text_setters_spec fresh) as (_ & H & _).
  destruct (H "a" "b") as (_ & Hok).
  destruct (Hok Ha Hb) as (Hret & _ & Htweet & _).
  split; [exact Ha |]. split; [exact Hb |]. split; [exact Hret | exact Htweet].
Defined.

Lemma setField_composes_witness :
  1 <= 1 <= 8 /\ 1 <= 2 <= 8 /\ Std.length "10" <= 255 /\ Std.length "abc" <= 255 /\
  1 <> 2 /\
  snd (setField 2 "abc" (snd (setField 1 "10" fresh)))
  = snd (setField 1 "10" (snd (setField 2 "abc" fresh))).
Proof.
  assert (H1 : 1 <= 1 <= 8) by lia.
  assert (H2 : 1 <= 2 <= 8) by lia.
  assert (Hv : Std.length "10" <= 255) by (vm_compute; discriminate).
  assert (Hu : Std.length "abc" <= 255) by (vm_compute; discriminate).
  assert (Hne : 1 <> 2) by lia.
  split; [exact H1 |]. split; [exact H2 |]. split; [exact Hv |].
  split; [exact Hu |]. split; [exact Hne |].
  exact (proj2 (setField_composes 1 2 "10" "abc" fresh H1 H2 Hv Hu) Hne).
Defined.

Lemma getJSONValueByKey_sound_witness :
  Std.length feed_text <= Int.INT_MAX /\
  getJSONValueByKey feed_text "status" = Std.Ret "ok" /\ "ok" <> "" /\
  forall q : nat, ~ occurs_at dquote "ok" q.
Proof.
  assert (Hmax : Std.length feed_text <= Int.INT_MAX) by (vm_compute; discriminate).
  assert (Hret : getJSONValueByKey feed_text "status" = Std.Ret "ok") by reflexivity.
  assert (Hne : "ok" <> "") by discriminate.
  split; [exact Hmax |]. split; [exact Hret |]. split; [exact Hne |].
  exact (proj2 (getJSONValueByKey_sound feed_text "status" "ok" Hmax Hret Hne)).
Defined.

Lemma writeFields_payload_witness :
  bounded (this two_fields) /\ staged (this two_fields) /\
  Std.length
    (Http.body (Http.with_body (update_request "KEY") (encode (this two_fields))))
  <= getWriteFieldsContentLength (this two_fields).
Proof.
  split; [exact two_fields_bounded |]. split; [exact two_fields_staged |].
  destruct (writeFields_payload (reply 200 "1") 1 "KEY" two_fields
              two_fields_bounded two_fields_staged) as (_ & _ & H & _).
  exact H.
Defined.
